(** * The merge action of mergify-engine

    A shallow embedding of [mergify_engine/actions/merge/action.py]:
    the commit-message derivation, the merge attempt, the classifier of
    merge errors, the base-branch synchronisation and the [run]/[cancel]
    entry points of [MergeAction], followed by the properties the
    specification states about them.

    Conventions.  A Python [str] is a [string] whose characters are code
    points below 256.  A value that the code only tests for truthiness
    ([None] or the empty string) is the empty string.  A function that may
    raise returns a [result]; a method that reads or mutates the context,
    the queue or the remote side is a computation in the monad [M]. *)

From Stdlib Require Import String Ascii List ZArith Lia Bool DecimalString.
Import ListNotations.
Local Open Scope list_scope.
Local Open Scope string_scope.

Set Implicit Arguments.

(** ** Python strings *)

Module PyStr.

(** [bool(s)] for a string. *)
Definition truthy (s : string) : bool :=
  match s with
  | EmptyString => false
  | String _ _ => true
  end.

(** [str.isspace] on one code point below 256; [\s] of [re] on a [str]
    pattern is the same class. *)
Definition isspace (c : ascii) : bool :=
  let n := nat_of_ascii c in
  ((9 <=? n) && (n <=? 13) || (28 <=? n) && (n <=? 31) || (n =? 32)
   || (n =? 133) || (n =? 160))%nat.

(** The case folding [re.I] applies to the letters of a pattern: below
    256 only the ASCII letters have a second case that matches. *)
Definition lower (c : ascii) : ascii :=
  let n := nat_of_ascii c in
  if ((65 <=? n) && (n <=? 90))%nat then ascii_of_nat (n + 32) else c.

Fixpoint lstrip (s : string) : string :=
  match s with
  | EmptyString => EmptyString
  | String c rest => if isspace c then lstrip rest else s
  end.

Fixpoint rstrip (s : string) : string :=
  match s with
  | EmptyString => EmptyString
  | String c rest =>
      match rstrip rest with
      | EmptyString => if isspace c then EmptyString else String c EmptyString
      | kept => String c kept
      end
  end.

(** [s.strip()] *)
Definition strip (s : string) : string := rstrip (lstrip s).

(** [s.split(sep)] for a separator of one character. *)
Fixpoint split (sep : ascii) (s : string) : list string :=
  match s with
  | EmptyString => [EmptyString]
  | String c rest =>
      if Ascii.eqb c sep then EmptyString :: split sep rest
      else
        match split sep rest with
        | [] => [String c EmptyString]
        | field :: fields => String c field :: fields
        end
  end.

(** [sep.join(parts)] *)
Fixpoint join (sep : string) (parts : list string) : string :=
  match parts with
  | [] => EmptyString
  | [p] => p
  | p :: rest => p ++ sep ++ join sep rest
  end.

(** [needle in hay] *)
Fixpoint contains (needle hay : string) : bool :=
  prefix needle hay
  || match hay with
     | EmptyString => false
     | String _ rest => contains needle rest
     end.

(** [str(n)] for an integer. *)
Definition of_int (n : Z) : string := NilZero.string_of_int (Z.to_int n).

Definition LF : ascii := ascii_of_nat 10.

End PyStr.

(** ** Regular expressions

    The two patterns of the module are kept as data and run by a matcher
    on derivatives.  [re_match] is [pattern.match(s)]: the match starts at
    the first character and may stop before the end of [s], [$] holds at
    the end of [s] and before a final line feed. *)

Module Re.

Inductive regex : Type :=
| Void : regex
| Eps : regex
| Sym : (ascii -> bool) -> regex
| Eol : regex
| Seq : regex -> regex -> regex
| Alt : regex -> regex -> regex
| Star : regex -> regex.

(** A literal character under [re.I]. *)
Definition lit_i (c : ascii) : regex :=
  Sym (fun x => Ascii.eqb (PyStr.lower x) (PyStr.lower c)).

(** A literal string under [re.I]. *)
Fixpoint str_i (s : string) : regex :=
  match s with
  | EmptyString => Eps
  | String c rest => Seq (lit_i c) (str_i rest)
  end.

Definition plus (r : regex) : regex := Seq r (Star r).
Definition opt (r : regex) : regex := Alt r Eps.
Definition space : regex := Sym PyStr.isspace.

(** Does [r] match the empty word here; [at_end] says whether [$] holds
    at this position. *)
Fixpoint nullable (at_end : bool) (r : regex) : bool :=
  match r with
  | Void => false
  | Eps => true
  | Sym _ => false
  | Eol => at_end
  | Seq r1 r2 => nullable at_end r1 && nullable at_end r2
  | Alt r1 r2 => nullable at_end r1 || nullable at_end r2
  | Star _ => true
  end.

Fixpoint deriv (at_end : bool) (c : ascii) (r : regex) : regex :=
  match r with
  | Void | Eps | Eol => Void
  | Sym p => if p c then Eps else Void
  | Seq r1 r2 =>
      if nullable at_end r1
      then Alt (Seq (deriv at_end c r1) r2) (deriv at_end c r2)
      else Seq (deriv at_end c r1) r2
  | Alt r1 r2 => Alt (deriv at_end c r1) (deriv at_end c r2)
  | Star r1 => Seq (deriv at_end c r1) (Star r1)
  end.

(** [$] without [re.M]: at the end, or before a line feed that ends the
    string. *)
Definition at_end (s : string) : bool :=
  match s with
  | EmptyString => true
  | String c EmptyString => Ascii.eqb c PyStr.LF
  | _ => false
  end.

Fixpoint re_match (r : regex) (s : string) : bool :=
  nullable (at_end s) r
  || match s with
     | EmptyString => false
     | String c rest => re_match (deriv (at_end s) c r) rest
     end.

End Re.

(** [MARKDOWN_TITLE_RE = re.compile(r"^#+ ", re.I)] *)
Definition MARKDOWN_TITLE_RE : Re.regex :=
  Re.Seq (Re.plus (Re.lit_i "#")) (Re.lit_i " ").

(** [MARKDOWN_COMMIT_MESSAGE_RE = re.compile(r"^#+ Commit Message ?:?\s*$", re.I)] *)
Definition MARKDOWN_COMMIT_MESSAGE_RE : Re.regex :=
  Re.Seq (Re.plus (Re.lit_i "#"))
    (Re.Seq (Re.lit_i " ")
       (Re.Seq (Re.str_i "Commit Message")
          (Re.Seq (Re.opt (Re.lit_i " "))
             (Re.Seq (Re.opt (Re.lit_i ":"))
                (Re.Seq (Re.Star Re.space) Re.Eol))))).

(** ** Exceptions and results *)

Inductive exn : Type :=
| TemplateSyntaxError (message : string) (lineno : Z)
| TemplateError (message : string)
| PullRequestAttributeError (name : string)
| OtherException (what : string).

Inductive result (A : Type) : Type :=
| Return : A -> result A
| Raise : exn -> result A.

Arguments Return {A} _.
Arguments Raise {A} _.

(** ** Data *)

(** The fields of [ctxt.pull] the action reads. *)
Record Pull : Type := mkPull {
  number : Z;
  state : string;
  merged : bool;
  rebaseable : bool;
  head_sha : string;
  base_ref : string;
  title : string;
  body : string
}.

Inductive CommitMessageMode : Type := ModeDefault | ModeTitleBody.

(** [itertools.dropwhile] *)
Fixpoint dropwhile {A : Type} (p : A -> bool) (l : list A) : list A :=
  match l with
  | [] => []
  | x :: rest => if p x then dropwhile p rest else l
  end.

(** [lambda x: not x.strip()] *)
Definition blank (x : string) : bool := negb (PyStr.truthy (PyStr.strip x)).

(** The loop of [_get_commit_message] over the lines of the body, from the
    values of [found] and [message_lines] before a line to their values
    when the loop is left. *)
Fixpoint scan_lines (lines : list string) (found : bool)
    (message_lines : list string) : bool * list string :=
  match lines with
  | [] => (found, message_lines)
  | line :: rest =>
      if Re.re_match MARKDOWN_COMMIT_MESSAGE_RE line
      then scan_lines rest true message_lines
      else if found && Re.re_match MARKDOWN_TITLE_RE line
      then (found, message_lines)
      else if found
      then scan_lines rest found (message_lines ++ [line])%list
      else scan_lines rest found message_lines
  end.

(** The lines of the body, [pull_request.body.split("\n")]. *)
Definition body_lines (pr : Pull) : list string :=
  PyStr.split PyStr.LF (body pr).

(** [found] and [message_lines] after the loop. *)
Definition scan_body (pr : Pull) : bool * list string :=
  scan_lines (body_lines pr) false [].

Section CommitMessage.

(** [env.from_string(template).render()] in the sandboxed environment
    the pull request was injected in. *)
Variable render : Pull -> string -> result string.

Definition _get_commit_message (pull_request : Pull)
    (mode : CommitMessageMode) : result (option (string * string)) :=
  match mode with
  | ModeTitleBody => Return (Some (title pull_request, body pull_request))
  | ModeDefault =>
      if negb (PyStr.truthy (body pull_request)) then Return None
      else
        let (found, message_lines) := scan_body pull_request in
        let message_lines := dropwhile blank message_lines in
        match message_lines with
        | first :: message_lines =>
            if found then
              let message_lines := dropwhile blank message_lines in
              match render pull_request (PyStr.strip first) with
              | Raise e => Raise e
              | Return rendered_title =>
                  match render pull_request
                          (PyStr.join (String PyStr.LF EmptyString)
                             (map PyStr.strip message_lines)) with
                  | Raise e => Raise e
                  | Return rendered_body =>
                      Return (Some (rendered_title, rendered_body))
                  end
              end
            else Return None
        | [] => Return None
        end
  end.

End CommitMessage.

(** ** Configuration, context and outcomes *)

Inductive MergeMethod : Type := MethodRebase | MethodMerge | MethodSquash.

(** [rebase_fallback]: ["merge"], ["squash"] or [None]. *)
Inductive RebaseFallback : Type := FallbackMerge | FallbackSquash | FallbackNone.

(** [strict]: a [bool] or ["smart"]. *)
Inductive Strict : Type := StrictBool (b : bool) | StrictSmart.

Inductive StrictMethod : Type := StrictMethodRebase | StrictMethodMerge.

(** The validated [self.config]. *)
Record Config : Type := mkConfig {
  method : MergeMethod;
  rebase_fallback : RebaseFallback;
  strict : Strict;
  strict_method : StrictMethod;
  commit_message : CommitMessageMode
}.

(** [bool(config["strict"])] *)
Definition strict_truthy (s : Strict) : bool :=
  match s with
  | StrictBool b => b
  | StrictSmart => true
  end.

(** [config["strict"] == "smart"] *)
Definition strict_is_smart (s : Strict) : bool :=
  match s with
  | StrictBool _ => false
  | StrictSmart => true
  end.

Definition is_rebase (m : MergeMethod) : bool :=
  match m with
  | MethodRebase => true
  | _ => false
  end.

(** One unmet condition: its attribute name, and the call of the condition
    with that attribute set to a check name. *)
Record Condition : Type := mkCondition {
  attribute_name : string;
  cond_call : string -> bool
}.

(** What the action reads from [ctxt]; [checks] lists [ctxt.checks.items()]. *)
Record Context : Type := mkContext {
  pull : Pull;
  is_behind : bool;
  pull_base_is_modifiable : bool;
  checks : list (string * option string)
}.

(** The tuple [(conclusion, title, summary)] a method returns. *)
Definition Outcome : Type := (option string * string * string)%type.

Definition status (o : Outcome) : option string := fst (fst o).
Definition summary (o : Outcome) : string := snd (fst o).
Definition detail (o : Outcome) : string := snd o.

(** [httpx.HTTPClientSideError] *)
Record HTTPClientSideError : Type := mkClientError {
  message : string;
  status_code : Z
}.

(** The [json] payload of the merge call; an absent key is [None]. *)
Record MergeData : Type := mkMergeData {
  data_commit_title : option string;
  data_commit_message : option string;
  data_sha : string;
  data_merge_method : MergeMethod
}.

(** What the merge endpoint answers: the call returns, raises a client-side
    error, or raises anything else. *)
Inductive PutResponse : Type :=
| PutOk
| PutClientSideError (e : HTTPClientSideError)
| PutRaises (e : exn).

(** ** The merge queue *)

Record QueueEntry : Type := mkQueueEntry {
  branch_id : string;
  pull_number : Z;
  sync_method : StrictMethod
}.

Definition MergeQueue : Type := list QueueEntry.

Definition queued (n : Z) (q : MergeQueue) : bool :=
  existsb (fun e => Z.eqb (pull_number e) n) q.

(** Modelled from the spec: [queue.add_pull] is not part of the sources.
    Enqueuing a pull request that is queued updates its method and keeps
    its place; otherwise the entry goes to the end (FIFO). *)
Definition add_pull (ctxt : Context) (m : StrictMethod) (q : MergeQueue) : MergeQueue :=
  let n := number (pull ctxt) in
  if queued n q
  then map (fun e => if Z.eqb (pull_number e) n
                     then mkQueueEntry (branch_id e) n m else e) q
  else (q ++ [mkQueueEntry (base_ref (pull ctxt)) n m])%list.

(** Modelled from the spec: [queue.remove_pull] is not part of the sources.
    Dequeuing removes the entry of the pull request; dequeuing an absent
    pull request changes nothing. *)
Definition remove_pull (ctxt : Context) (q : MergeQueue) : MergeQueue :=
  filter (fun e => negb (Z.eqb (pull_number e) (number (pull ctxt)))) q.

(** ** The world a method runs in *)

(** What a run does to the outside, in the order it does it. *)
Inductive Event : Type :=
| EvLog (msg : string)
| EvQueueAdd (n : Z) (m : StrictMethod)
| EvQueueRemove (n : Z)
| EvPut (n : Z) (data : MergeData)
| EvUpdate.

Record World : Type := mkWorld {
  ctxt : Context;
  merge_queue : MergeQueue;
  trace : list Event
}.

Definition M (A : Type) : Type := World -> result A * World.

Definition ret {A : Type} (a : A) : M A := fun w => (Return a, w).

Definition raise {A : Type} (e : exn) : M A := fun w => (Raise e, w).

Definition bind {A B : Type} (c : M A) (k : A -> M B) : M B :=
  fun w =>
    match c w with
    | (Return a, w') => k a w'
    | (Raise e, w') => (Raise e, w')
    end.

(** [try: body finally: cleanup] *)
Definition try_finally {A : Type} (body : M A) (cleanup : M unit) : M A :=
  fun w =>
    let (r, w') := body w in
    match cleanup w' with
    | (Return _, w'') => (r, w'')
    | (Raise e, w'') => (Raise e, w'')
    end.

Declare Scope action_scope.
Delimit Scope action_scope with action.
Notation "x <- c ;; k" := (bind c (fun x => k))
  (at level 61, c at next level, right associativity) : action_scope.
Notation "c ;; k" := (bind c (fun _ => k))
  (at level 61, right associativity) : action_scope.
Local Open Scope action_scope.

Definition get_ctxt : M Context := fun w => (Return (ctxt w), w).

Definition emit (ev : Event) (w : World) : World :=
  mkWorld (ctxt w) (merge_queue w) (trace w ++ [ev])%list.

(** [ctxt.log.info(msg, ...)] *)
Definition log_info (msg : string) : M unit := fun w => (Return tt, emit (EvLog msg) w).

(** [queue.add_pull(ctxt, method)] *)
Definition queue_add_pull (m : StrictMethod) : M unit :=
  fun w =>
    (Return tt,
     mkWorld (ctxt w) (add_pull (ctxt w) m (merge_queue w))
       (trace w ++ [EvQueueAdd (number (pull (ctxt w))) m])%list).

(** [queue.remove_pull(ctxt)] *)
Definition queue_remove_pull : M unit :=
  fun w =>
    (Return tt,
     mkWorld (ctxt w) (remove_pull (ctxt w) (merge_queue w))
       (trace w ++ [EvQueueRemove (number (pull (ctxt w)))])%list).

(** The collaborators of the action that are not part of the sources:
    the helpers of [mergify_engine.actions.merge.helpers], the report of
    [actions.Action], the template engine and the remote side. *)
Record Env : Type := mkEnv {
  merge_report : Context -> Strict -> option Outcome;
  get_wait_for_ci_report : Context -> Outcome;
  update_pull_base_branch : Context -> StrictMethod -> result Outcome;
  cancelled_check_report : Outcome;
  render : Pull -> string -> result string;
  remote_put : Context -> MergeData -> PutResponse;
  remote_refresh : Context -> Context
}.

(** ** MergeAction *)

Section MergeAction.

Variable env : Env.

(** [self.config] *)
Variable config : Config.

(** [ctxt.client.put(f"pulls/{ctxt.pull['number']}/merge", json=data)]:
    [None] when the call returns, the error when it raises a client-side
    error; any other exception propagates. *)
Definition client_put (data : MergeData) : M (option HTTPClientSideError) :=
  fun w =>
    let w' := emit (EvPut (number (pull (ctxt w))) data) w in
    match remote_put env (ctxt w) data with
    | PutOk => (Return None, w')
    | PutClientSideError e => (Return (Some e), w')
    | PutRaises e => (Raise e, w')
    end.

(** [ctxt.update()] *)
Definition ctxt_update : M unit :=
  fun w =>
    (Return tt,
     mkWorld (remote_refresh env (ctxt w)) (merge_queue w)
       (trace w ++ [EvUpdate])%list).

(** The loop of [_required_statuses_in_progress] over the missing
    conditions: [None] when it returns [False] from inside the loop,
    otherwise [need_look_at_checks] after the loop. *)
Fixpoint collect_status_conditions (missing_conditions : list Condition)
    (need_look_at_checks : list Condition) : option (list Condition) :=
  match missing_conditions with
  | [] => Some need_look_at_checks
  | condition :: rest =>
      if prefix "status-" (attribute_name condition)
      then collect_status_conditions rest (need_look_at_checks ++ [condition])%list
      else None
  end.

(** The comprehension over the checks and the status conditions. *)
Definition matched_states (checks : list (string * option string))
    (need_look_at_checks : list Condition) : list (option string) :=
  flat_map
    (fun item : string * option string =>
       flat_map
         (fun cond => if cond_call cond (fst item) then [snd item] else [])
         need_look_at_checks)
    checks.

(** [state in ("pending", None)] *)
Definition pending_or_none (state : option string) : bool :=
  match state with
  | None => true
  | Some s => String.eqb s "pending"
  end.

Definition _required_statuses_in_progress (ctxt : Context)
    (missing_conditions : list Condition) : bool :=
  if String.eqb (state (pull ctxt)) "closed" then false
  else
    match collect_status_conditions missing_conditions [] with
    | None => false
    | Some need_look_at_checks =>
        match need_look_at_checks with
        | [] => false
        | _ :: _ =>
            match checks ctxt with
            | [] => true
            | _ :: _ =>
                match matched_states (checks ctxt) need_look_at_checks with
                | [] => true
                | states => existsb pending_or_none states
                end
            end
        end
    end.

Definition _sync_with_base_branch : M Outcome :=
  ctxt <- get_ctxt ;;
  if negb (pull_base_is_modifiable ctxt) then
    ret (Some "failure",
         "Pull request can't be updated with latest "
         ++ "base branch changes, owner doesn't allow "
         ++ "modification",
         "")
  else if strict_is_smart (strict config) then
    queue_add_pull (strict_method config) ;;
    ret (None,
         "Base branch will be updated soon",
         "The pull request base branch will "
         ++ "be updated soon, and then merged.")
  else
    match update_pull_base_branch env ctxt (strict_method config) with
    | Return outcome => ret outcome
    | Raise e => raise e
    end.

Definition _handle_merge_error (e : HTTPClientSideError) : M Outcome :=
  if PyStr.contains "Head branch was modified" (message e) then
    log_info "Head branch was modified in the meantime" ;;
    ret (Some "cancelled",
         "Head branch was modified in the meantime",
         "The head branch was modified, the merge action have been cancelled.")
  else if PyStr.contains "Base branch was modified" (message e) then
    log_info "Base branch was modified in the meantime, retrying" ;;
    _sync_with_base_branch
  else if Z.eqb (status_code e) 405 then
    log_info "Waiting for the Branch Protection to be validated" ;;
    ret (None,
         "Waiting for the Branch Protection to be validated",
         "Branch Protection is enabled and is preventing Mergify "
         ++ "to merge the pull request. Mergify will merge when "
         ++ "branch protection settings validate the pull request. "
         ++ "(detail: " ++ message e ++ ")")
  else
    let message_ := "Mergify failed to merge the pull request" in
    log_info "merge fail" ;;
    ret (Some "failure", message_,
         "GitHub error message: `" ++ message e ++ "`").

(** The method [_merge] settles on: [None] when rebasing is asked for,
    is not possible and has no fallback. *)
Definition effective_method (ctxt : Context) : option MergeMethod :=
  if negb (is_rebase (method config)) || rebaseable (pull ctxt)
  then Some (method config)
  else
    match rebase_fallback config with
    | FallbackMerge => Some MethodMerge
    | FallbackSquash => Some MethodSquash
    | FallbackNone => None
    end.

(** The payload [data] of [_merge]. *)
Definition merge_data (ctxt : Context) (method : MergeMethod)
    (commit_title_and_message : option (string * string)) : MergeData :=
  let keep (s : string) := if PyStr.truthy s then Some s else None in
  mkMergeData
    (match commit_title_and_message with
     | Some (title, _) => keep title
     | None => None
     end)
    (match commit_title_and_message with
     | Some (_, message) => keep message
     | None => None
     end)
    (head_sha (pull ctxt))
    method.

(** [return helpers.merge_report(ctxt, self.config["strict"])] *)
Definition report : M (option Outcome) :=
  ctxt <- get_ctxt ;;
  ret (merge_report env ctxt (strict config)).

Definition _merge : M (option Outcome) :=
  ctxt <- get_ctxt ;;
  match effective_method ctxt with
  | None =>
      ret (Some (Some "action_required",
                 "Automatic rebasing is not possible, manual intervention required",
                 ""))
  | Some method =>
      match _get_commit_message (render env) (pull ctxt) (commit_message config) with
      | Raise (TemplateSyntaxError message lineno) =>
          ret (Some (Some "action_required",
                     "Invalid commit message",
                     "There is an error in your commit message: " ++ message
                     ++ " at line " ++ PyStr.of_int lineno))
      | Raise (TemplateError message) =>
          ret (Some (Some "action_required",
                     "Invalid commit message",
                     "There is an error in your commit message: " ++ message))
      | Raise (PullRequestAttributeError name) =>
          ret (Some (Some "action_required",
                     "Invalid commit message",
                     "There is an error in your commit message, "
                     ++ "the following variable is unknown: " ++ name))
      | Raise e => raise e
      | Return commit_title_and_message =>
          let data := merge_data ctxt method commit_title_and_message in
          failure <- client_put data ;;
          match failure with
          | Some e =>
              ctxt_update ;;
              ctxt <- get_ctxt ;;
              if merged (pull ctxt) then
                log_info "merged in the meantime" ;;
                report
              else
                outcome <- _handle_merge_error e ;;
                ret (Some outcome)
          | None =>
              ctxt_update ;;
              log_info "merged" ;;
              report
          end
      end
  end.

(** [if self.config["strict"] == "smart": queue.remove_pull(ctxt)] *)
Definition remove_pull_when_smart : M unit :=
  if strict_is_smart (strict config) then queue_remove_pull else ret tt.

Definition run (missing_conditions : list Condition) : M (option Outcome) :=
  log_info "process merge" ;;
  ctxt <- get_ctxt ;;
  match merge_report env ctxt (strict config) with
  | Some output =>
      remove_pull_when_smart ;;
      ret (Some output)
  | None =>
      if strict_truthy (strict config) && is_behind ctxt then
        outcome <- _sync_with_base_branch ;;
        ret (Some outcome)
      else
        try_finally _merge remove_pull_when_smart
  end.

Definition cancel (missing_conditions : list Condition) : M Outcome :=
  ctxt <- get_ctxt ;;
  if strict_truthy (strict config)
     && _required_statuses_in_progress ctxt missing_conditions
  then ret (get_wait_for_ci_report env ctxt)
  else
    remove_pull_when_smart ;;
    ret (cancelled_check_report env).

End MergeAction.

(** ** The helpers of the functional tests

    [EventReader._match] and [EventReader._remove_useless_links] of
    [mergify_engine/tests/functional/base.py], on the values [json.loads]
    gives.  A [dict] lists its items in order, a key standing once; a
    number is an integer. *)

Module TestBase.

#[warnings="-register-all"]
Inductive json : Type :=
| JNull
| JBool (b : bool)
| JInt (n : Z)
| JStr (s : string)
| JList (elems : list json)
| JDict (items : list (string * json)).

(** The exceptions the two functions can raise. *)
Inductive PyError : Type := TypeError | AttributeError | KeyError.

(** A value, or the exception raised instead. *)
Inductive attempt (A : Type) : Type :=
| Done : A -> attempt A
| Fails : PyError -> attempt A.

Arguments Done {A} _.
Arguments Fails {A} _.

(** [d.get(key)] on the items of a [dict]. *)
Fixpoint dict_get (key : string) (items : list (string * json)) : option json :=
  match items with
  | [] => None
  | (k, v) :: rest => if String.eqb k key then Some v else dict_get key rest
  end.

(** [key in d] on the items of a [dict]. *)
Definition has_key (key : string) (items : list (string * json)) : bool :=
  match dict_get key items with
  | Some _ => true
  | None => false
  end.

(** [a == b]; [True] and [False] compare as 1 and 0. *)
Fixpoint py_eq (a b : json) : bool :=
  match a, b with
  | JNull, JNull => true
  | JBool x, JBool y => Bool.eqb x y
  | JBool x, JInt n => Z.eqb (if x then 1 else 0) n
  | JInt n, JBool x => Z.eqb n (if x then 1 else 0)
  | JInt m, JInt n => Z.eqb m n
  | JStr s, JStr t => String.eqb s t
  | JList xs, JList ys =>
      (fix all_eq (xs ys : list json) : bool :=
         match xs, ys with
         | [], [] => true
         | x :: xs', y :: ys' => py_eq x y && all_eq xs' ys'
         | _, _ => false
         end) xs ys
  | JDict xs, JDict ys =>
      Nat.eqb (List.length xs) (List.length ys)
      && (fix all_in (xs : list (string * json)) : bool :=
            match xs with
            | [] => true
            | (k, v) :: xs' =>
                match dict_get k ys with
                | Some v' => py_eq v v'
                | None => false
                end
                && all_in xs'
            end) xs
  | _, _ => false
  end.

(** The comparison of two lists, element by element. *)
Fixpoint all_eq (xs ys : list json) : bool :=
  match xs, ys with
  | [], [] => true
  | x :: xs', y :: ys' => py_eq x y && all_eq xs' ys'
  | _, _ => false
  end.

(** Every item of [xs] has an equal value under its key in [ys]. *)
Definition all_in (ys : list (string * json)) : list (string * json) -> bool :=
  fix all_in (xs : list (string * json)) : bool :=
    match xs with
    | [] => true
    | (k, v) :: xs' =>
        match dict_get k ys with
        | Some v' => py_eq v v'
        | None => false
        end
        && all_in xs'
    end.

(** [key in data], for a string [key]. *)
Definition contains_key (key : string) (data : json) : attempt bool :=
  match data with
  | JDict items => Done (has_key key items)
  | JList elems => Done (existsb (fun x => py_eq x (JStr key)) elems)
  | JStr s => Done (PyStr.contains key s)
  | JNull | JBool _ | JInt _ => Fails TypeError
  end.

(** [data[key]], for a string [key]. *)
Definition getitem (data : json) (key : string) : attempt json :=
  match data with
  | JDict items =>
      match dict_get key items with
      | Some v => Done v
      | None => Fails KeyError
      end
  | _ => Fails TypeError
  end.

Fixpoint _match (data expected_data : json) : attempt bool :=
  match expected_data with
  | JDict items =>
      (fix loop (items : list (string * json)) : attempt bool :=
         match items with
         | [] => Done true
         | (key, expected) :: rest =>
             match contains_key key data with
             | Fails e => Fails e
             | Done false => Done false
             | Done true =>
                 match getitem data key with
                 | Fails e => Fails e
                 | Done value =>
                     match _match value expected with
                     | Fails e => Fails e
                     | Done false => Done false
                     | Done true => loop rest
                     end
                 end
             end
         end) items
  | _ => Done (py_eq data expected_data)
  end.

(** [key.endswith(suffix)] *)
Fixpoint endswith (suffix s : string) : bool :=
  String.eqb s suffix
  || match s with
     | EmptyString => false
     | String _ rest => endswith suffix rest
     end.

(** [d.pop(key, None)] on the items of a [dict]. *)
Definition dict_pop (key : string) (items : list (string * json)) :
    list (string * json) :=
  filter (fun item => negb (String.eqb (fst item) key)) items.

(** The keys [_remove_useless_links] pops from every [dict]. *)
Definition useless_keys : list string :=
  ["installation"; "sender"; "repository"; "base"; "head"; "id"; "node_id";
   "tree_id"; "_links"; "user"; "body"; "after"; "before"; "app"; "timestamp";
   "external_id"].

(** [data[key].pop(inner, None)], when [key] is in [data]: the check that
    the value has such a [pop]. *)
Definition pop_inside (key : string) (items : list (string * json)) : attempt unit :=
  match dict_get key items with
  | None => Done tt
  | Some (JDict _) => Done tt
  | Some (JList _) => Fails TypeError
  | Some _ => Fails AttributeError
  end.

(** The key that was popped from the value of [key] before the loop
    reaches that value. *)
Definition popped_inside (key : string) : list string :=
  if String.eqb key "organization" then ["description"]
  else if String.eqb key "check_run" then ["checks_suite"]
  else [].

(** Whether [key] is one of [keys]. *)
Definition key_in (keys : list string) (key : string) : bool :=
  existsb (String.eqb key) keys.

(** [_remove_useless_links] on a value from which the keys [popped] were
    popped already, which is how the loop finds the values of
    [organization] and [check_run].  The loop goes over the items of the
    [dict] and passes over those that the pops at the head of the function
    have removed. *)
Fixpoint remove_useless_links_from (popped : list string) (data : json) :
    attempt json :=
  match data with
  | JDict items =>
      let gone := key_in (popped ++ useless_keys)%list in
      let kept := filter (fun item => negb (gone (fst item))) items in
      match pop_inside "organization" kept with
      | Fails e => Fails e
      | Done _ =>
          match pop_inside "check_run" kept with
          | Fails e => Fails e
          | Done _ =>
              match
                (fix loop (items : list (string * json)) :
                     attempt (list (string * json)) :=
                   match items with
                   | [] => Done []
                   | (key, value) :: rest =>
                       if gone key then loop rest
                       else if endswith "url" key then loop rest
                       else if endswith "_at" key then loop rest
                       else
                         match remove_useless_links_from (popped_inside key) value with
                         | Fails e => Fails e
                         | Done value' =>
                             match loop rest with
                             | Fails e => Fails e
                             | Done rest' => Done ((key, value') :: rest')
                             end
                         end
                   end) items
              with
              | Fails e => Fails e
              | Done items' => Done (JDict items')
              end
          end
      end
  | JList elems =>
      match
        (fix each (elems : list json) : attempt (list json) :=
           match elems with
           | [] => Done []
           | elem :: rest =>
               match remove_useless_links_from [] elem with
               | Fails e => Fails e
               | Done elem' =>
                   match each rest with
                   | Fails e => Fails e
                   | Done rest' => Done (elem' :: rest')
                   end
               end
           end) elems
      with
      | Fails e => Fails e
      | Done elems' => Done (JList elems')
      end
  | _ => Done data
  end.

Definition _remove_useless_links (data : json) : attempt json :=
  remove_useless_links_from [] data.

(** The loop of [_remove_useless_links] over the items of a [dict], where
    [gone] tells the keys popped before it. *)
Definition links_loop (gone : string -> bool) :
    list (string * json) -> attempt (list (string * json)) :=
  fix loop (items : list (string * json)) : attempt (list (string * json)) :=
    match items with
    | [] => Done []
    | (key, value) :: rest =>
        if gone key then loop rest
        else if endswith "url" key then loop rest
        else if endswith "_at" key then loop rest
        else
          match remove_useless_links_from (popped_inside key) value with
          | Fails e => Fails e
          | Done value' =>
              match loop rest with
              | Fails e => Fails e
              | Done rest' => Done ((key, value') :: rest')
              end
          end
    end.

(** The comprehension of [_remove_useless_links] over a [list]. *)
Fixpoint links_each (elems : list json) : attempt (list json) :=
  match elems with
  | [] => Done []
  | elem :: rest =>
      match remove_useless_links_from [] elem with
      | Fails e => Fails e
      | Done elem' =>
          match links_each rest with
          | Fails e => Fails e
          | Done rest' => Done (elem' :: rest')
          end
      end
  end.

(** The keys of a [dict] stand once, at every depth. *)
Fixpoint well_formed (data : json) : bool :=
  match data with
  | JDict items =>
      (fix unique (items : list (string * json)) : bool :=
         match items with
         | [] => true
         | (key, value) :: rest =>
             negb (has_key key rest) && well_formed value && unique rest
         end) items
  | JList elems => forallb well_formed elems
  | _ => true
  end.

(** A key [_remove_useless_links] leaves in a [dict]. *)
Definition useful_key (key : string) : bool :=
  negb (key_in useless_keys key)
  && negb (endswith "url" key)
  && negb (endswith "_at" key).

(** A value that holds none of [keys], when it is a [dict]. *)
Definition without_keys (keys : list string) (data : json) : bool :=
  match data with
  | JDict items => forallb (fun item => negb (key_in keys (fst item))) items
  | _ => true
  end.

(** A [dict], as the value of [organization] and [check_run] has to be. *)
Definition is_dict (data : json) : bool :=
  match data with
  | JDict _ => true
  | _ => false
  end.

(** What [_remove_useless_links] leaves: at every depth, a [dict] holds
    useful keys only, its [organization] is a [dict] without
    [description] and its [check_run] a [dict] without [checks_suite]. *)
Fixpoint scrubbed (data : json) : bool :=
  match data with
  | JDict items =>
      (fix every (items : list (string * json)) : bool :=
         match items with
         | [] => true
         | (key, value) :: rest =>
             useful_key key
             && scrubbed value
             && without_keys (popped_inside key) value
             && match popped_inside key with
                | [] => true
                | _ :: _ => is_dict value
                end
             && every rest
         end) items
  | JList elems => forallb scrubbed elems
  | _ => true
  end.

(** At every depth, the value of [organization] and the value of
    [check_run] are [dict]s. *)
Fixpoint inner_dicts (data : json) : bool :=
  match data with
  | JDict items =>
      (fix every (items : list (string * json)) : bool :=
         match items with
         | [] => true
         | (key, value) :: rest =>
             match popped_inside key with
             | [] => true
             | _ :: _ => is_dict value
             end
             && inner_dicts value
             && every rest
         end) items
  | JList elems => forallb inner_dicts elems
  | _ => true
  end.

(** What a value gives once the keys [popped] are out of the way. *)
Definition scrubs (popped : list string) (value : json) : Prop :=
  forall out,
    remove_useless_links_from popped value = Done out ->
    scrubbed out = true
    /\ without_keys popped out = true
    /\ (is_dict value = true -> is_dict out = true).

(** What [scrubbed] asks of the item of a [dict]. *)
Definition scrubbed_item (item : string * json) : Prop :=
  useful_key (fst item) = true
  /\ scrubbed (snd item) = true
  /\ without_keys (popped_inside (fst item)) (snd item) = true
  /\ (popped_inside (fst item) <> [] -> is_dict (snd item) = true).

Section JsonInduction.

Variable P : json -> Prop.
Hypothesis on_null : P JNull.
Hypothesis on_bool : forall b, P (JBool b).
Hypothesis on_int : forall n, P (JInt n).
Hypothesis on_str : forall s, P (JStr s).
Hypothesis on_list : forall elems, Forall P elems -> P (JList elems).
Hypothesis on_dict :
  forall items, Forall (fun item => P (snd item)) items -> P (JDict items).

(** Induction on a value, with the hypothesis on the elements of a [list]
    and on the values of a [dict]. *)
Fixpoint json_induction (data : json) : P data :=
  match data with
  | JNull => on_null
  | JBool b => on_bool b
  | JInt n => on_int n
  | JStr s => on_str s
  | JList elems =>
      on_list
        ((fix all (elems : list json) : Forall P elems :=
            match elems with
            | [] => Forall_nil P
            | elem :: rest => Forall_cons elem (json_induction elem) (all rest)
            end) elems)
  | JDict items =>
      on_dict
        ((fix all (items : list (string * json)) :
              Forall (fun item => P (snd item)) items :=
            match items with
            | [] => Forall_nil _
            | item :: rest =>
                Forall_cons item (json_induction (snd item)) (all rest)
            end) items)
  end.

End JsonInduction.

End TestBase.

(** ** A concrete setting

    The pull request, the contexts and the collaborators the examples
    below are run on. *)

Module Sample.

Definition LFs : string := String PyStr.LF EmptyString.

(** The body of the example of the specification. *)
Definition body_with_message : string :=
  "intro" ++ LFs ++ "# Commit Message" ++ LFs ++ "Fix bug" ++ LFs ++ LFs
  ++ "Details here" ++ LFs ++ "# Another Heading" ++ LFs ++ "ignored".

Definition pull_open : Pull :=
  mkPull 7 "open" false false "c0ffee" "master" "Fix the bug" body_with_message.

Definition pull_merged : Pull :=
  mkPull 7 "closed" true false "c0ffee" "master" "Fix the bug" body_with_message.

(** Up to date with its base branch. *)
Definition ctxt_ready : Context := mkContext pull_open false true [].

(** Behind a base branch that the process may not modify. *)
Definition ctxt_behind_locked : Context := mkContext pull_open true false [].

(** Behind a base branch that the process may modify. *)
Definition ctxt_behind : Context := mkContext pull_open true true [].

Definition other_entry : QueueEntry := mkQueueEntry "master" 3 StrictMethodMerge.
Definition own_entry : QueueEntry := mkQueueEntry "master" 7 StrictMethodMerge.

(** A queue that holds the pull request and another one. *)
Definition world (ctxt : Context) : World :=
  mkWorld ctxt [other_entry; own_entry] [].

(** Modelled from the spec: [helpers.merge_report] is not part of the
    sources.  A pull request that is merged is reported at once, and
    nothing is reported for one that can still be merged. *)
Definition merge_report (ctxt : Context) (_ : Strict) : option Outcome :=
  if merged (pull ctxt)
  then Some (Some "success", "The pull request has been merged", "")
  else None.

(** Modelled from the spec: [helpers.get_wait_for_ci_report] is not part
    of the sources; the outcome that says the action waits for CI. *)
Definition get_wait_for_ci_report (_ : Context) : Outcome :=
  (None, "Base branch updates done", "Waiting for status checks").

(** Modelled from the spec: [helpers.update_pull_base_branch] is not
    part of the sources; the update is done and its outcome returned. *)
Definition update_pull_base_branch (_ : Context) (_ : StrictMethod) : result Outcome :=
  Return (None, "Base branch updates done", "").

(** Modelled from the spec: [actions.Action.cancelled_check_report] is
    not part of the sources; the outcome of a cancellation. *)
Definition cancelled_check_report : Outcome :=
  (Some "cancelled", "The rule doesn't match anymore",
   "This action has been cancelled.").

(** Modelled from the spec: the template engine is not part of the
    sources.  A template of literal text renders to itself; this engine
    takes no other template. *)
Definition render (_ : Pull) (template : string) : result string :=
  if PyStr.contains "{" template
  then Raise (TemplateSyntaxError "unexpected '{'" 1)
  else Return template.

(** The collaborators, for a remote side that answers the merge call
    with [answer] and refreshes a context with [refresh]. *)
Definition env (answer : PutResponse) (refresh : Context -> Context) : Env :=
  mkEnv merge_report get_wait_for_ci_report update_pull_base_branch
    cancelled_check_report render (fun _ _ => answer) refresh.

(** The refresh after the pull request was merged. *)
Definition refresh_merged (ctxt : Context) : Context :=
  mkContext pull_merged (is_behind ctxt) (pull_base_is_modifiable ctxt) (checks ctxt).

Definition same (ctxt : Context) : Context := ctxt.

Definition config_smart : Config :=
  mkConfig MethodMerge FallbackMerge StrictSmart StrictMethodMerge ModeDefault.

Definition config_strict : Config :=
  mkConfig MethodMerge FallbackMerge (StrictBool true) StrictMethodMerge ModeDefault.

Definition config_rebase_only : Config :=
  mkConfig MethodRebase FallbackNone (StrictBool true) StrictMethodMerge ModeDefault.

Definition config_rebase_smart : Config :=
  mkConfig MethodRebase FallbackNone StrictSmart StrictMethodMerge ModeDefault.

Definition config_rebase_squash : Config :=
  mkConfig MethodRebase FallbackSquash (StrictBool false) StrictMethodMerge ModeDefault.

(** A condition on the checks that succeeded, met by the check [ci]. *)
Definition status_success_ci : Condition :=
  mkCondition "status-success" (fun name => String.eqb name "ci").

(** A condition on the labels. *)
Definition label_ready : Condition :=
  mkCondition "label" (fun name => String.eqb name "ready").

(** A pull request whose commit message is a template that does not
    close its expression. *)
Definition pull_bad_template : Pull :=
  mkPull 9 "open" false true "deadbeef" "master" "Fix it"
    ("# Commit Message" ++ LFs ++ "{{ title").

Definition ctxt_bad_template : Context := mkContext pull_bad_template false true [].

(** The check [ci] is running, the check [lint] failed. *)
Definition ctxt_ci_pending : Context :=
  mkContext pull_open false true [("ci", Some "pending"); ("lint", Some "failure")].

End Sample.

(** ** The words of the specification *)

(** The world [queue.remove_pull] leaves. *)
Definition dequeued (w : World) : World := snd (queue_remove_pull w).

(** The four classes of a failed merge call. *)
Inductive Classification : Type :=
| Cancel
| Resync
| Wait
| TerminalFailure.

(** The classifier as the specification words it, a function of the status
    code and the message, its cases taken in the order they are listed:
    head branch modified, base branch modified, status 405, anything
    else. *)
Definition classify (e : HTTPClientSideError) : Classification :=
  if PyStr.contains "Head branch was modified" (message e) then Cancel
  else if PyStr.contains "Base branch was modified" (message e) then Resync
  else if Z.eqb (status_code e) 405 then Wait
  else TerminalFailure.

(** A required-status-check condition. *)
Definition is_status_condition (c : Condition) : bool :=
  prefix "status-" (attribute_name c).

(** The errors of a commit-message template: a syntax error, another
    template error, an unknown attribute of the pull request. *)
Definition rendering_error (e : exn) : bool :=
  match e with
  | TemplateSyntaxError _ _ | TemplateError _ | PullRequestAttributeError _ => true
  | OtherException _ => false
  end.

(** [part] stands verbatim in [whole]. *)
Definition includes (part whole : string) : Prop :=
  exists before after, whole = before ++ part ++ after.

(** A line that is a "Commit Message" heading. *)
Definition is_commit_message_heading (line : string) : bool :=
  Re.re_match MARKDOWN_COMMIT_MESSAGE_RE line.

(** A computation that leaves what was done before in the trace. *)
Definition extends_trace {A : Type} (c : M A) : Prop :=
  forall w, exists after, trace (snd (c w)) = (trace w ++ after)%list.

(** The merge endpoint was not called between the worlds [w] and [w']. *)
Definition no_put_between (w w' : World) : Prop :=
  forall n data, In (EvPut n data) (trace w') -> In (EvPut n data) (trace w).

(** The calls of the merge endpoint in a trace. *)
Fixpoint count_puts (t : list Event) : nat :=
  match t with
  | [] => 0
  | EvPut _ _ :: rest => S (count_puts rest)
  | _ :: rest => count_puts rest
  end.

(** The calls of the merge endpoint a world has seen. *)
Definition puts (w : World) : nat := count_puts (trace w).

(** A computation that leaves the view [f] of the world as it was. *)
Definition keeps {X A : Type} (f : World -> X) (c : M A) : Prop :=
  forall w, f (snd (c w)) = f w.

(** Whether [run] gets as far as the merge call: nothing is reported, no
    synchronisation is due, a method is settled on and the commit message
    is derived. *)
Definition reaches_merge_call (env : Env) (config : Config) (c : Context) : bool :=
  match merge_report env c (strict config) with
  | Some _ => false
  | None =>
      negb (strict_truthy (strict config) && is_behind c)
      && match effective_method config c with
         | None => false
         | Some _ =>
             match _get_commit_message (render env) (pull c) (commit_message config) with
             | Return _ => true
             | Raise _ => false
             end
         end
  end.

(** A line that is a Markdown title. *)
Definition is_title_line (line : string) : bool :=
  Re.re_match MARKDOWN_TITLE_RE line.

(** The templates [_get_commit_message] hands to the template engine in
    the default mode, the title first: what it returns when the engine
    renders every template to itself. *)
Definition commit_message_templates (pr : Pull) : option (string * string) :=
  match _get_commit_message (fun _ template => Return template) pr ModeDefault with
  | Return templates => templates
  | Raise _ => None
  end.

(** The character [c] occurs in [s]. *)
Fixpoint mentions (c : ascii) (s : string) : bool :=
  match s with
  | EmptyString => false
  | String x rest => Ascii.eqb x c || mentions c rest
  end.

(** Where a block ends: at the end of the body, or at a title that is not
    a "Commit Message" heading. *)
Definition ends_block (tail : list string) : bool :=
  match tail with
  | [] => true
  | line :: _ => is_title_line line && negb (is_commit_message_heading line)
  end.

(** ** What a pattern matches

    [matches r w rest]: the pattern [r] matches the word [w] when [rest]
    is what follows it in the string; [$] looks at what follows. *)
Inductive matches : Re.regex -> string -> string -> Prop :=
| MEps (rest : string) : matches Re.Eps "" rest
| MSym (p : ascii -> bool) (c : ascii) (rest : string) :
    p c = true -> matches (Re.Sym p) (String c "") rest
| MEol (rest : string) : Re.at_end rest = true -> matches Re.Eol "" rest
| MSeq (r1 r2 : Re.regex) (w1 w2 rest : string) :
    matches r1 w1 (w2 ++ rest) -> matches r2 w2 rest ->
    matches (Re.Seq r1 r2) (w1 ++ w2) rest
| MAltL (r1 r2 : Re.regex) (w rest : string) :
    matches r1 w rest -> matches (Re.Alt r1 r2) w rest
| MAltR (r1 r2 : Re.regex) (w rest : string) :
    matches r2 w rest -> matches (Re.Alt r1 r2) w rest
| MStarNil (r : Re.regex) (rest : string) : matches (Re.Star r) "" rest
| MStarCons (r : Re.regex) (w1 w2 rest : string) :
    matches r w1 (w2 ++ rest) -> matches (Re.Star r) w2 rest ->
    matches (Re.Star r) (w1 ++ w2) rest.

(** [n] times the character [#]. *)
Fixpoint hashes (n : nat) : string :=
  match n with
  | O => ""
  | S k => String "#" (hashes k)
  end.

(** Every character of [s] is white space. *)
Fixpoint all_space (s : string) : bool :=
  match s with
  | EmptyString => true
  | String c rest => PyStr.isspace c && all_space rest
  end.

(** [s] with its ASCII capitals in lower case. *)
Fixpoint lowered (s : string) : string :=
  match s with
  | EmptyString => EmptyString
  | String c rest => String (PyStr.lower c) (lowered rest)
  end.

(** ** General facts *)

Lemma queued_remove_pull (c : Context) (q : MergeQueue) :
  queued (number (pull c)) (remove_pull c q) = false.
Proof.
  unfold queued, remove_pull.
  induction q as [|e q IH]; simpl; [reflexivity|].
  destruct (Z.eqb (pull_number e) (number (pull c))) eqn:E; simpl.
  - exact IH.
  - rewrite E. exact IH.
Qed.

Lemma dequeued_not_queued (w : World) :
  queued (number (pull (ctxt (dequeued w)))) (merge_queue (dequeued w)) = false.
Proof. unfold dequeued; simpl. apply queued_remove_pull. Qed.

Lemma dequeued_trace (w : World) :
  trace (dequeued w)
  = (trace w ++ [EvQueueRemove (number (pull (ctxt (dequeued w))))])%list.
Proof. reflexivity. Qed.

(** What [try: ... finally: queue.remove_pull(ctxt)] leaves, however the
    body is left. *)
Lemma try_finally_remove_pull (A : Type) (body : M A) (w : World) :
  try_finally body queue_remove_pull w
  = (fst (body w), dequeued (snd (body w))).
Proof.
  unfold try_finally. destruct (body w) as [r w1]. reflexivity.
Qed.

Lemma remove_pull_when_smart_smart (config : Config) :
  strict config = StrictSmart ->
  remove_pull_when_smart config = queue_remove_pull.
Proof. intros H. unfold remove_pull_when_smart. rewrite H. reflexivity. Qed.

(** The merge attempt of [run], taken when nothing is reported and the
    pull request needs no synchronisation. *)
Lemma run_merge_attempt (env : Env) (config : Config)
    (missing_conditions : list Condition) (w : World) :
  merge_report env (ctxt w) (strict config) = None ->
  strict_truthy (strict config) && is_behind (ctxt w) = false ->
  run env config missing_conditions w
  = try_finally (_merge env config) (remove_pull_when_smart config)
      (emit (EvLog "process merge") w).
Proof.
  intros Hreport Hsync.
  unfold run, bind, log_info, get_ctxt. simpl.
  rewrite Hreport, Hsync. reflexivity.
Qed.

(** The report of [run], taken when [merge_report] has something to say. *)
Lemma run_report (env : Env) (config : Config)
    (missing_conditions : list Condition) (w : World) (output : Outcome) :
  merge_report env (ctxt w) (strict config) = Some output ->
  run env config missing_conditions w
  = (let w1 := emit (EvLog "process merge") w in
     (Return (Some output),
      if strict_is_smart (strict config) then dequeued w1 else w1)).
Proof.
  intros Hreport.
  unfold run, bind, log_info, get_ctxt, remove_pull_when_smart. simpl.
  rewrite Hreport.
  destruct (strict_is_smart (strict config)); reflexivity.
Qed.

(** The synchronisation of [run]. *)
Lemma run_sync (env : Env) (config : Config)
    (missing_conditions : list Condition) (w : World) :
  merge_report env (ctxt w) (strict config) = None ->
  strict_truthy (strict config) && is_behind (ctxt w) = true ->
  run env config missing_conditions w
  = (let r := _sync_with_base_branch env config (emit (EvLog "process merge") w) in
     match fst r with
     | Return outcome => (Return (Some outcome), snd r)
     | Raise e => (Raise e, snd r)
     end).
Proof.
  intros Hreport Hsync.
  unfold run, bind, log_info, get_ctxt. simpl.
  rewrite Hreport, Hsync.
  destruct (_sync_with_base_branch env config (emit (EvLog "process merge") w))
    as [[outcome|e] w1]; reflexivity.
Qed.

(** ** The functions at work *)

Example headings_recognised :
  map is_commit_message_heading
    ["# Commit Message"; "## commit message :"; "### COMMIT MESSAGE:  ";
     "#Commit Message"; "# Commit Message  :"; "# Commit Message: x";
     " # Commit Message"]
  = [true; true; true; false; false; false; false].
Proof. vm_compute. reflexivity. Qed.

Example titles_recognised :
  map (Re.re_match MARKDOWN_TITLE_RE) ["# x"; "## "; "#x"; " # a"; "#"; ""]
  = [true; true; false; false; false; false].
Proof. vm_compute. reflexivity. Qed.

Example example_body_scanned :
  scan_body Sample.pull_open = (true, ["Fix bug"; ""; "Details here"]).
Proof. vm_compute. reflexivity. Qed.

Example title_and_body_verbatim :
  _get_commit_message Sample.render Sample.pull_open ModeTitleBody
  = Return (Some ("Fix the bug", Sample.body_with_message)).
Proof. reflexivity. Qed.

(** A merge that goes through under [strict == "smart"]. *)
Example run_merges :
  run (Sample.env PutOk Sample.refresh_merged) Sample.config_smart []
    (Sample.world Sample.ctxt_ready)
  = (Return (Some (Some "success", "The pull request has been merged", "")),
     mkWorld (Sample.refresh_merged Sample.ctxt_ready) [Sample.other_entry]
       [EvLog "process merge";
        EvPut 7 (mkMergeData (Some "Fix bug") (Some "Details here") "c0ffee" MethodMerge);
        EvUpdate; EvLog "merged"; EvQueueRemove 7]).
Proof. vm_compute. reflexivity. Qed.

(** A merge call refused because the base branch moved, under
    [strict == "smart"]: the pull request is queued by the
    synchronisation, then dequeued when [run] is left. *)
Example run_resyncs :
  let refused := mkClientError "Base branch was modified. Review and try the merge again." 405 in
  let r := run (Sample.env (PutClientSideError refused) Sample.same)
             Sample.config_smart [] (mkWorld Sample.ctxt_ready [] []) in
  fst r = Return (Some (None, "Base branch will be updated soon",
                        "The pull request base branch will be updated soon, and then merged."))
  /\ merge_queue (snd r) = []
  /\ trace (snd r)
     = [EvLog "process merge";
        EvPut 7 (mkMergeData (Some "Fix bug") (Some "Details here") "c0ffee" MethodMerge);
        EvUpdate; EvLog "Base branch was modified in the meantime, retrying";
        EvQueueAdd 7 StrictMethodMerge; EvQueueRemove 7].
Proof. vm_compute. repeat split. Qed.

Example errors_classified :
  map classify
    [mkClientError "Head branch was modified. Review and try the merge again." 409;
     mkClientError "Base branch was modified. Review and try the merge again." 405;
     mkClientError "Required status check is expected" 405;
     mkClientError "Pull Request is not mergeable" 422]
  = [Cancel; Resync; Wait; TerminalFailure].
Proof. vm_compute. reflexivity. Qed.

(** ** The smart queue holds no completed attempt *)

(** C1: with [strict == "smart"], when [run] returns an outcome from the
    report of [merge_report] or from the merge attempt (that is, not from
    the synchronisation with the base branch), [queue.remove_pull] was the
    last thing done and the pull request is not in the queue. *)
Theorem run_smart_leaves_no_entry (env : Env) (config : Config)
    (missing_conditions : list Condition) (w : World)
    (outcome : option Outcome) :
  strict config = StrictSmart ->
  merge_report env (ctxt w) StrictSmart <> None \/ is_behind (ctxt w) = false ->
  fst (run env config missing_conditions w) = Return outcome ->
  let w' := snd (run env config missing_conditions w) in
  queued (number (pull (ctxt w'))) (merge_queue w') = false
  /\ exists before,
       trace w' = (before ++ [EvQueueRemove (number (pull (ctxt w')))])%list.
Proof.
  intros Hsmart Hpath _.
  destruct (merge_report env (ctxt w) (strict config)) as [output|] eqn:Hreport.
  - rewrite (run_report _ _ _ _ Hreport), Hsmart. simpl.
    split; [apply queued_remove_pull | eexists; reflexivity].
  - rewrite Hsmart in Hreport.
    destruct Hpath as [Hsome | Hbehind]; [congruence|].
    rewrite <- Hsmart in Hreport.
    rewrite run_merge_attempt by (rewrite ?Hbehind, ?andb_false_r; trivial).
    rewrite (remove_pull_when_smart_smart _ Hsmart), try_finally_remove_pull.
    simpl snd.
    split; [apply dequeued_not_queued | eexists; apply dequeued_trace].
Qed.

Lemma run_smart_leaves_no_entry_witness :
  let w' := snd (run (Sample.env PutOk Sample.refresh_merged) Sample.config_smart []
                   (Sample.world Sample.ctxt_ready)) in
  queued (number (pull (ctxt w'))) (merge_queue w') = false
  /\ exists before,
       trace w' = (before ++ [EvQueueRemove (number (pull (ctxt w')))])%list.
Proof.
  apply (@run_smart_leaves_no_entry (Sample.env PutOk Sample.refresh_merged)
           Sample.config_smart [] (Sample.world Sample.ctxt_ready)
           (Some (Some "success", "The pull request has been merged", ""))).
  - reflexivity.
  - right. reflexivity.
  - vm_compute. reflexivity.
Defined.

(** C9: with [strict == "smart"], when [run] takes the merge attempt,
    [queue.remove_pull] is the last thing done and the pull request is not
    in the queue however the attempt is left: by an outcome or by an
    exception that goes through [run]. *)
Theorem run_smart_dequeues_on_every_exit (env : Env) (config : Config)
    (missing_conditions : list Condition) (w : World) :
  strict config = StrictSmart ->
  merge_report env (ctxt w) StrictSmart = None ->
  is_behind (ctxt w) = false ->
  let r := run env config missing_conditions w in
  fst r = fst (_merge env config (emit (EvLog "process merge") w))
  /\ queued (number (pull (ctxt (snd r)))) (merge_queue (snd r)) = false
  /\ exists before,
       trace (snd r)
       = (before ++ [EvQueueRemove (number (pull (ctxt (snd r))))])%list.
Proof.
  intros Hsmart Hreport Hbehind.
  rewrite <- Hsmart in Hreport.
  rewrite run_merge_attempt by (rewrite ?Hbehind, ?andb_false_r; trivial).
  rewrite (remove_pull_when_smart_smart _ Hsmart), try_finally_remove_pull.
  simpl.
  split; [reflexivity|].
  split; [apply dequeued_not_queued | eexists; apply dequeued_trace].
Qed.

Lemma run_smart_dequeues_on_every_exit_witness :
  let env := Sample.env (PutRaises (OtherException "HTTPServerSideError")) Sample.same in
  let r := run env Sample.config_smart [] (Sample.world Sample.ctxt_ready) in
  fst r = Raise (OtherException "HTTPServerSideError")
  /\ queued 7 (merge_queue (snd r)) = false
  /\ exists before, trace (snd r) = (before ++ [EvQueueRemove 7])%list.
Proof.
  exact (@run_smart_dequeues_on_every_exit
           (Sample.env (PutRaises (OtherException "HTTPServerSideError")) Sample.same)
           Sample.config_smart [] (Sample.world Sample.ctxt_ready)
           eq_refl eq_refl eq_refl).
Defined.

(** ** The classifier of merge errors *)

Lemma includes_intro (before part after : string) :
  includes part (before ++ part ++ after).
Proof. exists before, after. reflexivity. Qed.

(** C2: a client-side failure of the merge call is classified by its
    message and status code, the cases taken in the order listed.  A
    message with "Head branch was modified" gives the status [cancelled];
    otherwise one with "Base branch was modified" runs the synchronisation
    with the base branch again and returns what it returns; otherwise the
    status code 405 gives no status and the summary that waits for the
    branch protection; anything else gives the status [failure] with the
    remote message verbatim in the detail. *)
Theorem merge_error_classified (env : Env) (config : Config)
    (e : HTTPClientSideError) (w : World) :
  let r := _handle_merge_error env config e w in
  match classify e with
  | Cancel =>
      exists outcome, fst r = Return outcome /\ status outcome = Some "cancelled"
  | Resync =>
      r = _sync_with_base_branch env config
            (emit (EvLog "Base branch was modified in the meantime, retrying") w)
  | Wait =>
      exists outcome,
        fst r = Return outcome
        /\ status outcome = None
        /\ summary outcome = "Waiting for the Branch Protection to be validated"
        /\ includes (message e) (detail outcome)
  | TerminalFailure =>
      exists outcome,
        fst r = Return outcome
        /\ status outcome = Some "failure"
        /\ detail outcome = "GitHub error message: `" ++ message e ++ "`"
        /\ includes (message e) (detail outcome)
  end.
Proof.
  unfold classify, _handle_merge_error.
  destruct (PyStr.contains "Head branch was modified" (message e)).
  - eexists. split; reflexivity.
  - destruct (PyStr.contains "Base branch was modified" (message e)).
    + reflexivity.
    + destruct (Z.eqb (status_code e) 405).
      * eexists. repeat split.
        exists ("Branch Protection is enabled and is preventing Mergify "
                ++ "to merge the pull request. Mergify will merge when "
                ++ "branch protection settings validate the pull request. "
                ++ "(detail: "), ")".
        reflexivity.
      * eexists. repeat split.
        apply (includes_intro "GitHub error message: `" (message e) "`").
Qed.

(** ** The merge attempt *)

(** The world of [_merge] once the merge call was made with [data] and the
    context refreshed. *)
Lemma after_put_and_update (env : Env) (w : World) (data : MergeData) :
  snd (ctxt_update env (emit (EvPut (number (pull (ctxt w))) data) w))
  = mkWorld (remote_refresh env (ctxt w)) (merge_queue w)
      (trace w ++ [EvPut (number (pull (ctxt w))) data; EvUpdate])%list.
Proof.
  unfold ctxt_update, emit. simpl. rewrite <- app_assoc. reflexivity.
Qed.

(** C7: when the merge call raises a client-side error, [_merge] first
    refreshes the context; if the refreshed pull request is merged the
    error is dropped and the report of [merge_report] on the refreshed
    context is returned; only otherwise is the error classified, on the
    refreshed context. *)
Theorem merge_client_error_refreshes_first (env : Env) (config : Config)
    (w : World) (method : MergeMethod) (cm : option (string * string))
    (e : HTTPClientSideError) :
  effective_method config (ctxt w) = Some method ->
  _get_commit_message (render env) (pull (ctxt w)) (commit_message config)
  = Return cm ->
  remote_put env (ctxt w) (merge_data (ctxt w) method cm) = PutClientSideError e ->
  let refreshed :=
    mkWorld (remote_refresh env (ctxt w)) (merge_queue w)
      (trace w
       ++ [EvPut (number (pull (ctxt w))) (merge_data (ctxt w) method cm);
           EvUpdate])%list in
  _merge env config w
  = if merged (pull (ctxt refreshed))
    then (Return (merge_report env (ctxt refreshed) (strict config)),
          emit (EvLog "merged in the meantime") refreshed)
    else
      match _handle_merge_error env config e refreshed with
      | (Return outcome, w') => (Return (Some outcome), w')
      | (Raise x, w') => (Raise x, w')
      end.
Proof.
  intros Hmethod Hmessage Hput refreshed.
  unfold _merge, bind, get_ctxt, client_put. simpl fst. cbv iota beta.
  rewrite Hmethod, Hmessage, Hput.
  cbv iota beta.
  fold (emit (EvPut (number (pull (ctxt w))) (merge_data (ctxt w) method cm)) w).
  pose proof (after_put_and_update env w (merge_data (ctxt w) method cm)) as Hw.
  fold refreshed in Hw.
  destruct (ctxt_update env
              (emit (EvPut (number (pull (ctxt w))) (merge_data (ctxt w) method cm)) w))
    as [[[]|x] w1] eqn:Hupd; simpl in Hw; subst w1.
  - destruct (merged (pull (ctxt refreshed))); [reflexivity|].
    destruct (_handle_merge_error env config e refreshed) as [[o|x] w2]; reflexivity.
  - unfold ctxt_update in Hupd. discriminate.
Qed.

Lemma merge_client_error_refreshes_first_witness :
  _merge (Sample.env (PutClientSideError (mkClientError "timeout" 408)) Sample.refresh_merged)
    Sample.config_smart (Sample.world Sample.ctxt_ready)
  = (Return (Some (Some "success", "The pull request has been merged", "")),
     mkWorld (Sample.refresh_merged Sample.ctxt_ready)
       [Sample.other_entry; Sample.own_entry]
       [EvPut 7 (mkMergeData (Some "Fix bug") (Some "Details here") "c0ffee" MethodMerge);
        EvUpdate; EvLog "merged in the meantime"]).
Proof.
  exact (@merge_client_error_refreshes_first
           (Sample.env (PutClientSideError (mkClientError "timeout" 408))
              Sample.refresh_merged)
           Sample.config_smart (Sample.world Sample.ctxt_ready)
           MethodMerge (Some ("Fix bug", "Details here"))
           (mkClientError "timeout" 408) eq_refl eq_refl eq_refl).
Defined.

(** ** Cancellation *)

Lemma collect_status_conditions_all (missing need : list Condition) :
  forallb is_status_condition missing = true ->
  collect_status_conditions missing need = Some (need ++ missing)%list.
Proof.
  revert need.
  induction missing as [|c rest IH]; intros need Hall; simpl.
  - rewrite app_nil_r. reflexivity.
  - simpl in Hall. apply andb_prop in Hall as [Hc Hrest].
    unfold is_status_condition in Hc. rewrite Hc.
    rewrite (IH _ Hrest), <- app_assoc. reflexivity.
Qed.

Lemma collect_status_conditions_other (missing need : list Condition) :
  existsb (fun c => negb (is_status_condition c)) missing = true ->
  collect_status_conditions missing need = None.
Proof.
  revert need.
  induction missing as [|c rest IH]; intros need Hsome; simpl in *.
  - discriminate.
  - unfold is_status_condition in Hsome.
    destruct (prefix "status-" (attribute_name c)); simpl in Hsome.
    + apply IH, Hsome.
    + reflexivity.
Qed.

Lemma existsb_of_forallb (A : Type) (p : A -> bool) (x : A) (l : list A) :
  forallb p (x :: l) = true -> existsb p (x :: l) = true.
Proof.
  simpl. intros H. apply andb_prop in H as [Hx _]. rewrite Hx. reflexivity.
Qed.

(** The statuses are in progress when the conditions are status
    conditions, at least one of them, and what they match is pending or
    absent. *)
Lemma required_statuses_in_progress_pending (c : Context)
    (missing_conditions : list Condition) :
  state (pull c) <> "closed" ->
  missing_conditions <> [] ->
  forallb is_status_condition missing_conditions = true ->
  forallb pending_or_none (matched_states (checks c) missing_conditions) = true ->
  _required_statuses_in_progress c missing_conditions = true.
Proof.
  intros Hopen Hsome Hstatus Hpending.
  unfold _required_statuses_in_progress.
  apply String.eqb_neq in Hopen. rewrite Hopen.
  rewrite (collect_status_conditions_all _ [] Hstatus). simpl app.
  destruct missing_conditions as [|c0 rest]; [congruence|].
  destruct (checks c) as [|item items]; [reflexivity|].
  destruct (matched_states (item :: items) (c0 :: rest)) as [|s states];
    [reflexivity|].
  apply existsb_of_forallb, Hpending.
Qed.

Lemma required_statuses_in_progress_closed (c : Context)
    (missing_conditions : list Condition) :
  state (pull c) = "closed" ->
  _required_statuses_in_progress c missing_conditions = false.
Proof.
  intros Hclosed. unfold _required_statuses_in_progress.
  rewrite Hclosed. reflexivity.
Qed.

Lemma required_statuses_in_progress_other (c : Context)
    (missing_conditions : list Condition) :
  existsb (fun c => negb (is_status_condition c)) missing_conditions = true ->
  _required_statuses_in_progress c missing_conditions = false.
Proof.
  intros Hother. unfold _required_statuses_in_progress.
  rewrite (collect_status_conditions_other _ [] Hother).
  destruct (String.eqb (state (pull c)) "closed"); reflexivity.
Qed.

(** The hard cancel: dequeue under [strict == "smart"], then the report of
    the cancellation. *)
Lemma cancel_hard (env : Env) (config : Config)
    (missing_conditions : list Condition) (w : World) :
  strict_truthy (strict config)
  && _required_statuses_in_progress (ctxt w) missing_conditions = false ->
  cancel env config missing_conditions w
  = (Return (cancelled_check_report env),
     if strict_is_smart (strict config) then dequeued w else w).
Proof.
  intros Hno.
  unfold cancel, bind, get_ctxt, remove_pull_when_smart. simpl fst. cbv iota beta.
  rewrite Hno.
  destruct (strict_is_smart (strict config)); reflexivity.
Qed.

(** C3, as the specification states it, fails when no condition is
    missing: every condition of the empty list is a status condition and
    nothing matched is other than pending, yet [cancel] does not wait. *)
Lemma cancel_without_condition_counterexample :
  let env := Sample.env PutOk Sample.same in
  let w := Sample.world Sample.ctxt_ready in
  strict_truthy (strict Sample.config_strict) = true
  /\ state (pull (ctxt w)) <> "closed"
  /\ forallb is_status_condition [] = true
  /\ forallb pending_or_none (matched_states (checks (ctxt w)) []) = true
  /\ fst (cancel env Sample.config_strict [] w)
     <> Return (get_wait_for_ci_report env (ctxt w))
  /\ fst (cancel env Sample.config_strict [] w)
     = Return (cancelled_check_report env).
Proof.
  repeat split; try reflexivity; vm_compute; discriminate.
Qed.

(** C3, amended: with [config.strict] truthy.  If the pull request is not
    closed, at least one condition is missing, every missing condition is
    a status condition and every check state they match is pending or
    absent, [cancel] returns the report that waits for CI and leaves the
    queue and the trace as they were.  If a missing condition is not a
    status condition, or the pull request is closed, [cancel] returns the
    report of the cancellation, after dequeuing under [strict == "smart"]. *)
Theorem cancel_waits_or_cancels (env : Env) (config : Config)
    (missing_conditions : list Condition) (w : World) :
  strict_truthy (strict config) = true ->
  (state (pull (ctxt w)) <> "closed" ->
   missing_conditions <> [] ->
   forallb is_status_condition missing_conditions = true ->
   forallb pending_or_none
     (matched_states (checks (ctxt w)) missing_conditions) = true ->
   cancel env config missing_conditions w
   = (Return (get_wait_for_ci_report env (ctxt w)), w))
  /\ (existsb (fun c => negb (is_status_condition c)) missing_conditions = true
      \/ state (pull (ctxt w)) = "closed" ->
      cancel env config missing_conditions w
      = (Return (cancelled_check_report env),
         if strict_is_smart (strict config) then dequeued w else w)).
Proof.
  intros Hstrict. split.
  - intros Hopen Hsome Hstatus Hpending.
    unfold cancel, bind, get_ctxt. simpl fst. cbv iota beta.
    rewrite Hstrict, (required_statuses_in_progress_pending _ Hopen Hsome Hstatus Hpending).
    reflexivity.
  - intros Hhard. apply cancel_hard.
    destruct Hhard as [Hother | Hclosed].
    + rewrite (required_statuses_in_progress_other _ _ Hother). apply andb_false_r.
    + rewrite (required_statuses_in_progress_closed _ _ Hclosed). apply andb_false_r.
Qed.

Lemma cancel_waits_or_cancels_witness :
  let env := Sample.env PutOk Sample.same in
  let w := Sample.world Sample.ctxt_ci_pending in
  cancel env Sample.config_smart [Sample.status_success_ci] w
  = (Return (get_wait_for_ci_report env (ctxt w)), w)
  /\ cancel env Sample.config_smart [Sample.status_success_ci; Sample.label_ready] w
     = (Return (cancelled_check_report env), dequeued w).
Proof.
  split.
  - apply (@cancel_waits_or_cancels (Sample.env PutOk Sample.same)
             Sample.config_smart [Sample.status_success_ci]
             (Sample.world Sample.ctxt_ci_pending) eq_refl);
      [discriminate | discriminate | reflexivity | reflexivity].
  - apply (@cancel_waits_or_cancels (Sample.env PutOk Sample.same)
             Sample.config_smart [Sample.status_success_ci; Sample.label_ready]
             (Sample.world Sample.ctxt_ci_pending) eq_refl).
    left. reflexivity.
Defined.

(** C10: with [config.strict] truthy, an open pull request and no missing
    condition, the statuses are not in progress (the test asks for at
    least one status condition) and [cancel] returns the report of the
    cancellation, after dequeuing under [strict == "smart"]. *)
Theorem cancel_without_condition (env : Env) (config : Config) (w : World) :
  strict_truthy (strict config) = true ->
  state (pull (ctxt w)) <> "closed" ->
  _required_statuses_in_progress (ctxt w) [] = false
  /\ cancel env config [] w
     = (Return (cancelled_check_report env),
        if strict_is_smart (strict config) then dequeued w else w).
Proof.
  intros Hstrict Hopen.
  assert (Hno : _required_statuses_in_progress (ctxt w) [] = false).
  { unfold _required_statuses_in_progress. simpl.
    destruct (String.eqb (state (pull (ctxt w))) "closed"); reflexivity. }
  split; [exact Hno|].
  apply cancel_hard. rewrite Hno. apply andb_false_r.
Qed.

Lemma cancel_without_condition_witness :
  let env := Sample.env PutOk Sample.same in
  let w := Sample.world Sample.ctxt_ready in
  _required_statuses_in_progress (ctxt w) [] = false
  /\ cancel env Sample.config_smart [] w
     = (Return Sample.cancelled_check_report,
        mkWorld Sample.ctxt_ready [Sample.other_entry] [EvQueueRemove 7]).
Proof.
  apply (@cancel_without_condition (Sample.env PutOk Sample.same)
           Sample.config_smart (Sample.world Sample.ctxt_ready) eq_refl).
  discriminate.
Defined.

(** ** The synchronisation with the base branch *)

(** C4, as the specification states it, fails: on a base branch the
    process may not modify, the status is [failure], not
    [action_required]. *)
Lemma sync_locked_base_counterexample :
  let env := Sample.env PutOk Sample.same in
  let w := Sample.world Sample.ctxt_behind_locked in
  strict_truthy (strict Sample.config_strict) = true
  /\ is_behind (ctxt w) = true
  /\ merge_report env (ctxt w) (strict Sample.config_strict) = None
  /\ pull_base_is_modifiable (ctxt w) = false
  /\ exists outcome,
       fst (run env Sample.config_strict [] w) = Return (Some outcome)
       /\ status outcome = Some "failure"
       /\ status outcome <> Some "action_required".
Proof.
  repeat split; try reflexivity.
  eexists. split; [vm_compute; reflexivity|].
  split; [reflexivity | discriminate].
Qed.

(** C4, amended: when [run] takes the synchronisation with the base
    branch ([config.strict] truthy, nothing reported, the pull request
    behind) and the process may not modify the base branch, [run] returns
    the status [failure] with the summary that the owner does not allow
    the modification, whether [strict] is [True] or ["smart"], and touches
    neither the queue nor the remote side. *)
Theorem sync_locked_base_fails (env : Env) (config : Config)
    (missing_conditions : list Condition) (w : World) :
  strict_truthy (strict config) = true ->
  is_behind (ctxt w) = true ->
  merge_report env (ctxt w) (strict config) = None ->
  pull_base_is_modifiable (ctxt w) = false ->
  run env config missing_conditions w
  = (Return
       (Some (Some "failure",
              "Pull request can't be updated with latest base branch changes, owner doesn't allow modification",
              "")),
     emit (EvLog "process merge") w).
Proof.
  intros Hstrict Hbehind Hreport Hlocked.
  rewrite run_sync by (rewrite ?Hstrict, ?Hbehind; trivial).
  unfold _sync_with_base_branch, bind, get_ctxt. simpl.
  rewrite Hlocked. reflexivity.
Qed.

Lemma sync_locked_base_fails_witness :
  run (Sample.env PutOk Sample.same) Sample.config_smart []
    (Sample.world Sample.ctxt_behind_locked)
  = (Return
       (Some (Some "failure",
              "Pull request can't be updated with latest base branch changes, owner doesn't allow modification",
              "")),
     mkWorld Sample.ctxt_behind_locked [Sample.other_entry; Sample.own_entry]
       [EvLog "process merge"]).
Proof.
  exact (@sync_locked_base_fails (Sample.env PutOk Sample.same) Sample.config_smart []
           (Sample.world Sample.ctxt_behind_locked) eq_refl eq_refl eq_refl eq_refl).
Defined.

(** ** The trace only grows *)

Create HintDb trace.

Lemma extends_ret (A : Type) (a : A) : extends_trace (ret a).
Proof. intros w. exists []. simpl. rewrite app_nil_r. reflexivity. Qed.

Lemma extends_raise (A : Type) (e : exn) : extends_trace (@raise A e).
Proof. intros w. exists []. simpl. rewrite app_nil_r. reflexivity. Qed.

Lemma extends_get_ctxt : extends_trace get_ctxt.
Proof. intros w. exists []. simpl. rewrite app_nil_r. reflexivity. Qed.

Lemma extends_log_info (msg : string) : extends_trace (log_info msg).
Proof. intros w. eexists. reflexivity. Qed.

Lemma extends_queue_add_pull (m : StrictMethod) : extends_trace (queue_add_pull m).
Proof. intros w. eexists. reflexivity. Qed.

Lemma extends_queue_remove_pull : extends_trace queue_remove_pull.
Proof. intros w. eexists. reflexivity. Qed.

Lemma extends_ctxt_update (env : Env) : extends_trace (ctxt_update env).
Proof. intros w. eexists. reflexivity. Qed.

Lemma extends_bind (A B : Type) (c : M A) (k : A -> M B) :
  extends_trace c -> (forall a, extends_trace (k a)) -> extends_trace (bind c k).
Proof.
  intros Hc Hk w. unfold bind.
  destruct (Hc w) as [after1 H1].
  destruct (c w) as [[a|e] w1]; simpl in H1.
  - destruct (Hk a w1) as [after2 H2].
    exists (after1 ++ after2)%list. rewrite H2, H1, app_assoc. reflexivity.
  - exists after1. exact H1.
Qed.

Lemma extends_try_finally (A : Type) (body : M A) (cleanup : M unit) :
  extends_trace body -> extends_trace cleanup ->
  extends_trace (try_finally body cleanup).
Proof.
  intros Hbody Hcleanup w. unfold try_finally.
  destruct (Hbody w) as [after1 H1].
  destruct (body w) as [r w1]; simpl in H1.
  destruct (Hcleanup w1) as [after2 H2].
  exists (after1 ++ after2)%list.
  destruct (cleanup w1) as [[u|e] w2]; simpl in *;
    rewrite H2, H1, app_assoc; reflexivity.
Qed.

#[local] Hint Resolve extends_ret extends_raise extends_get_ctxt extends_log_info
  extends_queue_add_pull extends_queue_remove_pull extends_ctxt_update
  extends_bind extends_try_finally : trace.

Lemma extends_remove_pull_when_smart (config : Config) :
  extends_trace (remove_pull_when_smart config).
Proof.
  unfold remove_pull_when_smart.
  destruct (strict_is_smart (strict config)); auto with trace.
Qed.

Lemma extends_sync_with_base_branch (env : Env) (config : Config) :
  extends_trace (_sync_with_base_branch env config).
Proof.
  unfold _sync_with_base_branch.
  apply extends_bind; [auto with trace|]. intros c.
  destruct (negb (pull_base_is_modifiable c)); [auto with trace|].
  destruct (strict_is_smart (strict config)); [auto with trace|].
  destruct (update_pull_base_branch env c (strict_method config));
    auto with trace.
Qed.

Lemma extends_handle_merge_error (env : Env) (config : Config)
    (e : HTTPClientSideError) :
  extends_trace (_handle_merge_error env config e).
Proof.
  pose proof (extends_sync_with_base_branch env config) as Hsync.
  unfold _handle_merge_error.
  destruct (PyStr.contains "Head branch was modified" (message e));
    [auto with trace|].
  destruct (PyStr.contains "Base branch was modified" (message e));
    [auto with trace|].
  destruct (Z.eqb (status_code e) 405); auto with trace.
Qed.

Lemma extends_report (env : Env) (config : Config) :
  extends_trace (report env config).
Proof. unfold report. auto with trace. Qed.

#[local] Hint Resolve extends_remove_pull_when_smart extends_sync_with_base_branch
  extends_handle_merge_error extends_report : trace.

(** What [_merge] does once the merge call has answered. *)
Lemma extends_after_put (env : Env) (config : Config)
    (failure : option HTTPClientSideError) :
  extends_trace
    (match failure with
     | Some e =>
         ctxt_update env ;;
         ctxt <- get_ctxt ;;
         if merged (pull ctxt) then
           log_info "merged in the meantime" ;;
           report env config
         else
           outcome <- _handle_merge_error env config e ;;
           ret (Some outcome)
     | None =>
         ctxt_update env ;;
         log_info "merged" ;;
         report env config
     end).
Proof.
  destruct failure as [e|].
  - apply extends_bind; [auto with trace|]. intros _.
    apply extends_bind; [auto with trace|]. intros c.
    destruct (merged (pull c)); auto with trace.
  - auto with trace.
Qed.

(** The merge call comes first in what a computation that starts with it
    adds to the trace. *)
Lemma bind_client_put (env : Env) (B : Type)
    (k : option HTTPClientSideError -> M B) (data : MergeData) (w : World) :
  (forall failure, extends_trace (k failure)) ->
  exists after,
    trace (snd (bind (client_put env data) k w))
    = (trace w ++ EvPut (number (pull (ctxt w))) data :: after)%list.
Proof.
  intros Hk. unfold bind, client_put.
  destruct (remote_put env (ctxt w) data) as [|e|x].
  - destruct (Hk None (emit (EvPut (number (pull (ctxt w))) data) w)) as [after Hafter].
    exists after. rewrite Hafter. simpl. rewrite <- app_assoc. reflexivity.
  - destruct (Hk (Some e) (emit (EvPut (number (pull (ctxt w))) data) w))
      as [after Hafter].
    exists after. rewrite Hafter. simpl. rewrite <- app_assoc. reflexivity.
  - exists []. reflexivity.
Qed.

(** Once a method is settled on and the commit message derived, [_merge]
    calls the merge endpoint with them, before anything else. *)
Lemma merge_calls_endpoint (env : Env) (config : Config) (w : World)
    (method : MergeMethod) (cm : option (string * string)) :
  effective_method config (ctxt w) = Some method ->
  _get_commit_message (render env) (pull (ctxt w)) (commit_message config)
  = Return cm ->
  exists after,
    trace (snd (_merge env config w))
    = (trace w
       ++ EvPut (number (pull (ctxt w))) (merge_data (ctxt w) method cm) :: after)%list.
Proof.
  intros Hmethod Hmessage.
  unfold _merge, bind at 1, get_ctxt. simpl fst. cbv iota beta.
  rewrite Hmethod, Hmessage.
  apply bind_client_put.
  intros failure. apply extends_after_put.
Qed.

(** Leaving [run] by the cleanup of the merge attempt calls no endpoint. *)
Lemma no_put_in_cleanup (config : Config) (msg : string) (w : World) :
  let w1 := emit (EvLog msg) w in
  no_put_between w (if strict_is_smart (strict config) then dequeued w1 else w1).
Proof.
  intros w1 n data.
  destruct (strict_is_smart (strict config)); simpl; intros Hin;
    repeat (apply in_app_or in Hin as [Hin | Hin]);
    try exact Hin;
    simpl in Hin; destruct Hin as [Hin | []]; discriminate.
Qed.

(** [run] when [_merge] returns without calling the endpoint. *)
Lemma run_merge_returns_early (env : Env) (config : Config)
    (missing_conditions : list Condition) (w : World) (outcome : option Outcome) :
  merge_report env (ctxt w) (strict config) = None ->
  strict_truthy (strict config) && is_behind (ctxt w) = false ->
  (forall w1, ctxt w1 = ctxt w -> _merge env config w1 = (Return outcome, w1)) ->
  run env config missing_conditions w
  = (Return outcome,
     let w1 := emit (EvLog "process merge") w in
     if strict_is_smart (strict config) then dequeued w1 else w1).
Proof.
  intros Hreport Hsync Hmerge.
  rewrite (run_merge_attempt _ _ _ _ Hreport Hsync).
  unfold try_finally, remove_pull_when_smart.
  rewrite Hmerge by reflexivity.
  destruct (strict_is_smart (strict config)); reflexivity.
Qed.

(** [run] on the merge attempt, once a method is settled on and the commit
    message derived: the merge endpoint is called with them. *)
Lemma run_calls_endpoint (env : Env) (config : Config)
    (missing_conditions : list Condition) (w : World)
    (method : MergeMethod) (cm : option (string * string)) :
  merge_report env (ctxt w) (strict config) = None ->
  strict_truthy (strict config) && is_behind (ctxt w) = false ->
  effective_method config (ctxt w) = Some method ->
  _get_commit_message (render env) (pull (ctxt w)) (commit_message config)
  = Return cm ->
  exists after,
    trace (snd (run env config missing_conditions w))
    = (trace w
       ++ EvLog "process merge"
       :: EvPut (number (pull (ctxt w))) (merge_data (ctxt w) method cm)
       :: after)%list.
Proof.
  intros Hreport Hsync Hmethod Hmessage.
  rewrite (run_merge_attempt _ _ _ _ Hreport Hsync).
  unfold try_finally.
  destruct (merge_calls_endpoint env config (emit (EvLog "process merge") w)
              Hmethod Hmessage) as [after1 H1].
  destruct (_merge env config (emit (EvLog "process merge") w)) as [r w1].
  destruct (extends_remove_pull_when_smart config w1) as [after2 H2].
  exists (after1 ++ after2)%list.
  simpl in H1.
  destruct (remove_pull_when_smart config w1) as [[u|e] w2]; simpl in *;
    rewrite H2, H1; repeat (rewrite <- app_assoc; simpl); reflexivity.
Qed.

(** ** The merge method *)

(** C5, as the specification states it, fails: [run] with the method
    [rebase], no fallback and a pull request that cannot be rebased does
    not return [action_required] when it does not reach the merge attempt;
    here the pull request is behind its base branch and is queued. *)
Lemma rebase_without_fallback_counterexample :
  let env := Sample.env PutOk Sample.same in
  let w := Sample.world Sample.ctxt_behind in
  method Sample.config_rebase_smart = MethodRebase
  /\ rebase_fallback Sample.config_rebase_smart = FallbackNone
  /\ rebaseable (pull (ctxt w)) = false
  /\ exists outcome,
       fst (run env Sample.config_rebase_smart [] w) = Return (Some outcome)
       /\ status outcome = None
       /\ summary outcome = "Base branch will be updated soon"
       /\ status outcome <> Some "action_required".
Proof.
  repeat split.
  eexists. split; [vm_compute; reflexivity|].
  repeat split. discriminate.
Qed.

(** C5, amended: when [run] takes the merge attempt (nothing reported,
    and [strict] not set or the pull request not behind), with the method
    [rebase] and a pull request that cannot be rebased: without a fallback
    [run] returns the status [action_required] with the summary that
    automatic rebasing is not possible, and the merge endpoint is not
    called; with the fallback [merge] or [squash] that method is the one
    settled on, and the one the merge endpoint is called with once the
    commit message is derived. *)
Theorem rebase_not_possible (env : Env) (config : Config)
    (missing_conditions : list Condition) (w : World) :
  method config = MethodRebase ->
  rebaseable (pull (ctxt w)) = false ->
  merge_report env (ctxt w) (strict config) = None ->
  strict_truthy (strict config) && is_behind (ctxt w) = false ->
  let r := run env config missing_conditions w in
  let used (fallback : MergeMethod) :=
    effective_method config (ctxt w) = Some fallback
    /\ forall cm,
         _get_commit_message (render env) (pull (ctxt w)) (commit_message config)
         = Return cm ->
         exists after,
           trace (snd r)
           = (trace w
              ++ EvLog "process merge"
              :: EvPut (number (pull (ctxt w))) (merge_data (ctxt w) fallback cm)
              :: after)%list in
  match rebase_fallback config with
  | FallbackNone =>
      fst r
      = Return
          (Some (Some "action_required",
                 "Automatic rebasing is not possible, manual intervention required",
                 ""))
      /\ no_put_between w (snd r)
  | FallbackMerge => used MethodMerge
  | FallbackSquash => used MethodSquash
  end.
Proof.
  intros Hrebase Hrebaseable Hreport Hsync r used.
  assert (Hmethod : effective_method config (ctxt w)
                    = match rebase_fallback config with
                      | FallbackMerge => Some MethodMerge
                      | FallbackSquash => Some MethodSquash
                      | FallbackNone => None
                      end).
  { unfold effective_method. rewrite Hrebase, Hrebaseable. reflexivity. }
  subst used r.
  destruct (rebase_fallback config).
  - split; [exact Hmethod|]. intros cm Hmessage.
    exact (run_calls_endpoint _ _ _ _ Hreport Hsync Hmethod Hmessage).
  - split; [exact Hmethod|]. intros cm Hmessage.
    exact (run_calls_endpoint _ _ _ _ Hreport Hsync Hmethod Hmessage).
  - rewrite (@run_merge_returns_early env config missing_conditions w
               (Some (Some "action_required",
                      "Automatic rebasing is not possible, manual intervention required",
                      ""))
               Hreport Hsync).
    + split; [reflexivity|]. apply no_put_in_cleanup.
    + intros w1 Hctxt. unfold _merge, bind, get_ctxt. simpl.
      rewrite Hctxt, Hmethod. reflexivity.
Qed.

Lemma rebase_not_possible_witness :
  let r := run (Sample.env PutOk Sample.same) Sample.config_rebase_only []
             (Sample.world Sample.ctxt_ready) in
  fst r
  = Return
      (Some (Some "action_required",
             "Automatic rebasing is not possible, manual intervention required",
             ""))
  /\ no_put_between (Sample.world Sample.ctxt_ready) (snd r).
Proof.
  exact (@rebase_not_possible (Sample.env PutOk Sample.same)
           Sample.config_rebase_only [] (Sample.world Sample.ctxt_ready)
           eq_refl eq_refl eq_refl eq_refl).
Defined.

(** The fallback at work: the merge endpoint is called with [squash]. *)
Example rebase_falls_back_to_squash :
  trace (snd (run (Sample.env PutOk Sample.refresh_merged) Sample.config_rebase_squash []
                (Sample.world Sample.ctxt_ready)))
  = [EvLog "process merge";
     EvPut 7 (mkMergeData (Some "Fix bug") (Some "Details here") "c0ffee" MethodSquash);
     EvUpdate; EvLog "merged"].
Proof. vm_compute. reflexivity. Qed.

(** ** The commit message *)

Lemma append_empty_r (s : string) : s ++ "" = s.
Proof. induction s as [|c s IH]; simpl; [reflexivity | rewrite IH; reflexivity]. Qed.

Lemma append_assoc (a b c : string) : (a ++ b) ++ c = a ++ b ++ c.
Proof. induction a as [|x a IH]; simpl; [reflexivity | rewrite IH; reflexivity]. Qed.

Lemma includes_suffix (before part : string) : includes part (before ++ part).
Proof. exists before, "". rewrite append_empty_r. reflexivity. Qed.

(** The detail [_merge] gives for an error of the commit-message
    template holds what the error carries. *)
Lemma merge_invalid_commit_message (env : Env) (config : Config) (c : Context)
    (method : MergeMethod) (e : exn) :
  effective_method config c = Some method ->
  _get_commit_message (render env) (pull c) (commit_message config) = Raise e ->
  rendering_error e = true ->
  exists explanation,
    (forall w, ctxt w = c ->
       _merge env config w
       = (Return (Some (Some "action_required", "Invalid commit message",
                        explanation)), w))
    /\ match e with
       | TemplateSyntaxError message lineno =>
           includes message explanation
           /\ includes (PyStr.of_int lineno) explanation
       | TemplateError message => includes message explanation
       | PullRequestAttributeError name => includes name explanation
       | OtherException _ => False
       end.
Proof.
  intros Hmethod Hmessage Herror.
  destruct e as [message lineno|message|name|what]; try discriminate;
    eexists; (split;
      [intros w Hc; unfold _merge, bind, get_ctxt; simpl fst; cbv iota beta;
       rewrite Hc, Hmethod, Hmessage; reflexivity|]).
  - split.
    + apply (includes_intro "There is an error in your commit message: " message
               (" at line " ++ PyStr.of_int lineno)).
    + rewrite <- append_assoc, <- append_assoc. apply includes_suffix.
  - apply includes_suffix.
  - rewrite <- append_assoc. apply includes_suffix.
Qed.

(** C8: when the derivation of the commit message raises a template
    syntax error, another template error or an unknown attribute during
    the merge attempt of [run], [run] returns the status
    [action_required] with the summary "Invalid commit message" and a
    detail that holds the message of the error (with the line number of a
    syntax error, the name of an unknown attribute); the error does not
    leave [run] as an exception and the merge endpoint is not called. *)
Theorem invalid_commit_message_reported (env : Env) (config : Config)
    (missing_conditions : list Condition) (w : World)
    (method : MergeMethod) (e : exn) :
  merge_report env (ctxt w) (strict config) = None ->
  strict_truthy (strict config) && is_behind (ctxt w) = false ->
  effective_method config (ctxt w) = Some method ->
  _get_commit_message (render env) (pull (ctxt w)) (commit_message config)
  = Raise e ->
  rendering_error e = true ->
  let r := run env config missing_conditions w in
  exists explanation,
    fst r
    = Return (Some (Some "action_required", "Invalid commit message", explanation))
    /\ match e with
       | TemplateSyntaxError message lineno =>
           includes message explanation
           /\ includes (PyStr.of_int lineno) explanation
       | TemplateError message => includes message explanation
       | PullRequestAttributeError name => includes name explanation
       | OtherException _ => False
       end
    /\ no_put_between w (snd r).
Proof.
  intros Hreport Hsync Hmethod Hmessage Herror r.
  destruct (@merge_invalid_commit_message env config (ctxt w) method e
              Hmethod Hmessage Herror) as [explanation [Hmerge Hholds]].
  exists explanation.
  subst r.
  rewrite (@run_merge_returns_early env config missing_conditions w
             (Some (Some "action_required", "Invalid commit message", explanation))
             Hreport Hsync Hmerge).
  split; [reflexivity|]. split; [exact Hholds|]. apply no_put_in_cleanup.
Qed.

Lemma invalid_commit_message_reported_witness :
  let r := run (Sample.env PutOk Sample.same) Sample.config_smart []
             (Sample.world Sample.ctxt_bad_template) in
  exists explanation,
    fst r
    = Return (Some (Some "action_required", "Invalid commit message", explanation))
    /\ (includes "unexpected '{'" explanation
        /\ includes (PyStr.of_int 1) explanation)
    /\ no_put_between (Sample.world Sample.ctxt_bad_template) (snd r).
Proof.
  exact (@invalid_commit_message_reported (Sample.env PutOk Sample.same)
           Sample.config_smart [] (Sample.world Sample.ctxt_bad_template)
           MethodMerge (TemplateSyntaxError "unexpected '{'" 1)
           eq_refl eq_refl eq_refl eq_refl eq_refl).
Defined.

Lemma dropwhile_all (A : Type) (p : A -> bool) (l : list A) :
  forallb p l = true -> dropwhile p l = [].
Proof.
  induction l as [|x l IH]; simpl; [reflexivity|].
  intros H. apply andb_prop in H as [Hx Hl]. rewrite Hx. apply IH, Hl.
Qed.

(** Without a heading nothing is found and nothing collected. *)
Lemma scan_lines_without_heading (lines : list string) :
  forallb (fun line => negb (is_commit_message_heading line)) lines = true ->
  scan_lines lines false [] = (false, []).
Proof.
  induction lines as [|line rest IH]; simpl; [reflexivity|].
  intros H. apply andb_prop in H as [Hline Hrest].
  unfold is_commit_message_heading in Hline.
  apply negb_true_iff in Hline. rewrite Hline.
  apply IH, Hrest.
Qed.

(** No message comes out of a block that [dropwhile] empties. *)
Lemma get_commit_message_nothing_left (render : Pull -> string -> result string)
    (pr : Pull) :
  dropwhile blank (snd (scan_body pr)) = [] ->
  _get_commit_message render pr ModeDefault = Return None.
Proof.
  intros Hnothing. unfold _get_commit_message.
  destruct (negb (PyStr.truthy (body pr))); [reflexivity|].
  destruct (scan_body pr) as [found message_lines]. simpl in Hnothing.
  rewrite Hnothing. reflexivity.
Qed.

(** C6: in the default mode, the body of the example gives the title
    "Fix bug" and the body "Details here" (both literal text, which the
    template engine renders to itself); a body without a line that is a
    "Commit Message" heading gives no message; a body whose collected
    block is all blank gives no message. *)
Theorem commit_message_in_default_mode (render : Pull -> string -> result string)
    (pr : Pull) :
  (body pr = Sample.body_with_message ->
   render pr "Fix bug" = Return "Fix bug" ->
   render pr "Details here" = Return "Details here" ->
   _get_commit_message render pr ModeDefault
   = Return (Some ("Fix bug", "Details here")))
  /\ (forallb (fun line => negb (is_commit_message_heading line)) (body_lines pr)
      = true ->
      _get_commit_message render pr ModeDefault = Return None)
  /\ (forallb blank (snd (scan_body pr)) = true ->
      _get_commit_message render pr ModeDefault = Return None).
Proof.
  split; [|split].
  - intros Hbody Htitle Hrest.
    unfold _get_commit_message, scan_body, body_lines. rewrite Hbody.
    replace (negb (PyStr.truthy Sample.body_with_message)) with false
      by (vm_compute; reflexivity).
    replace (scan_lines (PyStr.split PyStr.LF Sample.body_with_message) false [])
      with (true, ["Fix bug"; ""; "Details here"]) by (vm_compute; reflexivity).
    replace (dropwhile blank ["Fix bug"; ""; "Details here"])
      with ["Fix bug"; ""; "Details here"] by (vm_compute; reflexivity).
    replace (dropwhile blank [""; "Details here"])
      with ["Details here"] by (vm_compute; reflexivity).
    replace (PyStr.strip "Fix bug") with "Fix bug" by (vm_compute; reflexivity).
    replace (PyStr.join (String PyStr.LF "") (map PyStr.strip ["Details here"]))
      with "Details here" by (vm_compute; reflexivity).
    rewrite Htitle, Hrest. reflexivity.
  - intros Hnone. apply get_commit_message_nothing_left.
    unfold scan_body. rewrite (scan_lines_without_heading _ Hnone). reflexivity.
  - intros Hblank. apply get_commit_message_nothing_left.
    apply dropwhile_all, Hblank.
Qed.

Lemma commit_message_in_default_mode_witness :
  _get_commit_message Sample.render Sample.pull_open ModeDefault
  = Return (Some ("Fix bug", "Details here"))
  /\ _get_commit_message Sample.render
       (mkPull 8 "open" false true "abc" "master" "No heading"
          ("intro" ++ Sample.LFs ++ "#Commit Message" ++ Sample.LFs ++ "text"))
       ModeDefault
     = Return None
  /\ _get_commit_message Sample.render
       (mkPull 8 "open" false true "abc" "master" "Blank block"
          ("# Commit Message:" ++ Sample.LFs ++ "  " ++ Sample.LFs ++ "# Next"
           ++ Sample.LFs ++ "text"))
       ModeDefault
     = Return None.
Proof.
  split; [|split].
  - apply (@commit_message_in_default_mode Sample.render Sample.pull_open);
      reflexivity.
  - apply (@commit_message_in_default_mode Sample.render
             (mkPull 8 "open" false true "abc" "master" "No heading"
                ("intro" ++ Sample.LFs ++ "#Commit Message" ++ Sample.LFs ++ "text"))).
    vm_compute. reflexivity.
  - apply (@commit_message_in_default_mode Sample.render
             (mkPull 8 "open" false true "abc" "master" "Blank block"
                ("# Commit Message:" ++ Sample.LFs ++ "  " ++ Sample.LFs ++ "# Next"
                 ++ Sample.LFs ++ "text"))).
    vm_compute. reflexivity.
Defined.


(** ** What a computation leaves as it was *)

Section Keeps.

Context {X : Type} (f : World -> X).

Lemma keeps_ret (A : Type) (a : A) : keeps f (ret a).
Proof. intros w. reflexivity. Qed.

Lemma keeps_raise (A : Type) (e : exn) : keeps f (@raise A e).
Proof. intros w. reflexivity. Qed.

Lemma keeps_get_ctxt : keeps f get_ctxt.
Proof. intros w. reflexivity. Qed.

Lemma keeps_bind (A B : Type) (c : M A) (k : A -> M B) :
  keeps f c -> (forall a, keeps f (k a)) -> keeps f (bind c k).
Proof.
  intros Hc Hk w. unfold bind.
  specialize (Hc w). destruct (c w) as [[a|e] w1]; simpl in Hc.
  - rewrite (Hk a w1). exact Hc.
  - exact Hc.
Qed.

Lemma keeps_try_finally (A : Type) (body : M A) (cleanup : M unit) :
  keeps f body -> keeps f cleanup -> keeps f (try_finally body cleanup).
Proof.
  intros Hbody Hcleanup w. unfold try_finally.
  specialize (Hbody w). destruct (body w) as [r w1]; simpl in Hbody.
  specialize (Hcleanup w1).
  destruct (cleanup w1) as [[u|e] w2]; simpl in *; congruence.
Qed.

End Keeps.

Lemma count_puts_app (t1 t2 : list Event) :
  count_puts (t1 ++ t2) = count_puts t1 + count_puts t2.
Proof.
  induction t1 as [|ev t1 IH]; simpl; [reflexivity|].
  destruct ev; simpl; rewrite IH; reflexivity.
Qed.

Lemma puts_emit (ev : Event) (w : World) :
  puts (emit ev w) = puts w + count_puts [ev].
Proof. unfold puts, emit. simpl. apply count_puts_app. Qed.

Lemma keeps_puts_log_info (msg : string) : keeps puts (log_info msg).
Proof. intros w. unfold log_info. simpl. rewrite puts_emit. simpl. lia. Qed.

Lemma keeps_puts_queue_add_pull (m : StrictMethod) : keeps puts (queue_add_pull m).
Proof. intros w. unfold puts. simpl. rewrite count_puts_app. simpl. lia. Qed.

Lemma keeps_puts_queue_remove_pull : keeps puts queue_remove_pull.
Proof. intros w. unfold puts. simpl. rewrite count_puts_app. simpl. lia. Qed.

Lemma keeps_puts_ctxt_update (env : Env) : keeps puts (ctxt_update env).
Proof. intros w. unfold puts. simpl. rewrite count_puts_app. simpl. lia. Qed.

Lemma keeps_puts_remove_pull_when_smart (config : Config) :
  keeps puts (remove_pull_when_smart config).
Proof.
  unfold remove_pull_when_smart. destruct (strict_is_smart (strict config)).
  - apply keeps_puts_queue_remove_pull.
  - apply keeps_ret.
Qed.

Lemma keeps_puts_sync_with_base_branch (env : Env) (config : Config) :
  keeps puts (_sync_with_base_branch env config).
Proof.
  unfold _sync_with_base_branch.
  apply keeps_bind; [apply keeps_get_ctxt|]. intros c.
  destruct (negb (pull_base_is_modifiable c)); [apply keeps_ret|].
  destruct (strict_is_smart (strict config)).
  - apply keeps_bind; [apply keeps_puts_queue_add_pull|]. intros _. apply keeps_ret.
  - destruct (update_pull_base_branch env c (strict_method config));
      [apply keeps_ret | apply keeps_raise].
Qed.

Lemma keeps_puts_handle_merge_error (env : Env) (config : Config)
    (e : HTTPClientSideError) :
  keeps puts (_handle_merge_error env config e).
Proof.
  unfold _handle_merge_error.
  destruct (PyStr.contains "Head branch was modified" (message e)).
  { apply keeps_bind; [apply keeps_puts_log_info|]. intros _. apply keeps_ret. }
  destruct (PyStr.contains "Base branch was modified" (message e)).
  { apply keeps_bind; [apply keeps_puts_log_info|]. intros _.
    apply keeps_puts_sync_with_base_branch. }
  destruct (Z.eqb (status_code e) 405);
    (apply keeps_bind; [apply keeps_puts_log_info|]; intros _; apply keeps_ret).
Qed.

Lemma keeps_puts_report (env : Env) (config : Config) :
  keeps puts (report env config).
Proof.
  unfold report. apply keeps_bind; [apply keeps_get_ctxt|]. intros c. apply keeps_ret.
Qed.

(** What [_merge] does once the merge call has answered calls no
    endpoint. *)
Lemma keeps_puts_after_put (env : Env) (config : Config)
    (failure : option HTTPClientSideError) :
  keeps puts
    (match failure with
     | Some e =>
         ctxt_update env ;;
         ctxt <- get_ctxt ;;
         if merged (pull ctxt) then
           log_info "merged in the meantime" ;;
           report env config
         else
           outcome <- _handle_merge_error env config e ;;
           ret (Some outcome)
     | None =>
         ctxt_update env ;;
         log_info "merged" ;;
         report env config
     end).
Proof.
  destruct failure as [e|].
  - apply keeps_bind; [apply keeps_puts_ctxt_update|]. intros _.
    apply keeps_bind; [apply keeps_get_ctxt|]. intros c.
    destruct (merged (pull c)).
    + apply keeps_bind; [apply keeps_puts_log_info|]. intros _.
      apply keeps_puts_report.
    + apply keeps_bind; [apply keeps_puts_handle_merge_error|]. intros o.
      apply keeps_ret.
  - apply keeps_bind; [apply keeps_puts_ctxt_update|]. intros _.
    apply keeps_bind; [apply keeps_puts_log_info|]. intros _.
    apply keeps_puts_report.
Qed.

(** The merge call counts for one, however it answers. *)
Lemma puts_bind_client_put (env : Env) (B : Type)
    (k : option HTTPClientSideError -> M B) (data : MergeData) (w : World) :
  (forall failure, keeps puts (k failure)) ->
  puts (snd (bind (client_put env data) k w)) = puts w + 1.
Proof.
  intros Hk. unfold bind, client_put.
  destruct (remote_put env (ctxt w) data) as [|e|x].
  - rewrite Hk. apply puts_emit.
  - rewrite Hk. apply puts_emit.
  - apply puts_emit.
Qed.

(** The calls [_merge] makes: one once a method is settled on and the
    commit message derived, none otherwise. *)
Lemma puts_merge (env : Env) (config : Config) (w : World) :
  puts (snd (_merge env config w))
  = puts w
    + match effective_method config (ctxt w) with
      | None => 0
      | Some _ =>
          match _get_commit_message (render env) (pull (ctxt w))
                  (commit_message config) with
          | Return _ => 1
          | Raise _ => 0
          end
      end.
Proof.
  unfold _merge, bind at 1, get_ctxt. simpl fst. cbv iota beta.
  destruct (effective_method config (ctxt w)) as [method|]; [|simpl; lia].
  destruct (_get_commit_message (render env) (pull (ctxt w)) (commit_message config))
    as [cm|[message lineno|message|name|what]]; try (simpl; lia).
  apply puts_bind_client_put. intros failure. apply keeps_puts_after_put.
Qed.

(** X1: [run] calls the merge endpoint at most once: exactly once when
    nothing is reported, no synchronisation is due, a method is settled
    on and the commit message is derived, and not at all otherwise. *)
Theorem run_calls_endpoint_once (env : Env) (config : Config)
    (missing_conditions : list Condition) (w : World) :
  puts (snd (run env config missing_conditions w))
  = puts w + (if reaches_merge_call env config (ctxt w) then 1 else 0).
Proof.
  unfold reaches_merge_call.
  destruct (merge_report env (ctxt w) (strict config)) as [output|] eqn:Hreport.
  - rewrite (run_report _ _ _ _ Hreport). simpl.
    destruct (strict_is_smart (strict config)).
    + unfold dequeued. rewrite keeps_puts_queue_remove_pull, puts_emit. simpl. lia.
    + rewrite puts_emit. simpl. lia.
  - destruct (strict_truthy (strict config) && is_behind (ctxt w)) eqn:Hsync.
    + rewrite (run_sync _ _ _ _ Hreport Hsync).
      pose proof (keeps_puts_sync_with_base_branch env config
                    (emit (EvLog "process merge") w)) as Hkeeps.
      destruct (_sync_with_base_branch env config (emit (EvLog "process merge") w))
        as [[outcome|e] w1]; simpl in *; rewrite Hkeeps, puts_emit; simpl; lia.
    + rewrite (run_merge_attempt _ _ _ _ Hreport Hsync).
      unfold try_finally.
      pose proof (puts_merge env config (emit (EvLog "process merge") w)) as Hmerge.
      destruct (_merge env config (emit (EvLog "process merge") w)) as [r w1].
      pose proof (keeps_puts_remove_pull_when_smart config w1) as Hcleanup.
      destruct (remove_pull_when_smart config w1) as [[u|e] w2];
        simpl in *; rewrite Hcleanup, Hmerge, puts_emit; simpl;
        destruct (effective_method config (ctxt w)); try lia;
        destruct (_get_commit_message (render env) (pull (ctxt w))
                    (commit_message config)); lia.
Qed.

(** ** The queue is the business of the smart mode *)

Lemma keeps_queue_log_info (msg : string) : keeps merge_queue (log_info msg).
Proof. intros w. reflexivity. Qed.

Lemma keeps_queue_ctxt_update (env : Env) : keeps merge_queue (ctxt_update env).
Proof. intros w. reflexivity. Qed.

Lemma keeps_queue_client_put (env : Env) (data : MergeData) :
  keeps merge_queue (client_put env data).
Proof.
  intros w. unfold client_put.
  destruct (remote_put env (ctxt w) data); reflexivity.
Qed.

Section NotSmart.

Variable env : Env.
Variable config : Config.
Hypothesis not_smart : strict_is_smart (strict config) = false.

Lemma keeps_queue_remove_pull_when_smart :
  keeps merge_queue (remove_pull_when_smart config).
Proof. unfold remove_pull_when_smart. rewrite not_smart. apply keeps_ret. Qed.

Lemma keeps_queue_sync_with_base_branch :
  keeps merge_queue (_sync_with_base_branch env config).
Proof.
  unfold _sync_with_base_branch.
  apply keeps_bind; [apply keeps_get_ctxt|]. intros c.
  destruct (negb (pull_base_is_modifiable c)); [apply keeps_ret|].
  rewrite not_smart.
  destruct (update_pull_base_branch env c (strict_method config));
    [apply keeps_ret | apply keeps_raise].
Qed.

Lemma keeps_queue_handle_merge_error (e : HTTPClientSideError) :
  keeps merge_queue (_handle_merge_error env config e).
Proof.
  unfold _handle_merge_error.
  destruct (PyStr.contains "Head branch was modified" (message e)).
  { apply keeps_bind; [apply keeps_queue_log_info|]. intros _. apply keeps_ret. }
  destruct (PyStr.contains "Base branch was modified" (message e)).
  { apply keeps_bind; [apply keeps_queue_log_info|]. intros _.
    apply keeps_queue_sync_with_base_branch. }
  destruct (Z.eqb (status_code e) 405);
    (apply keeps_bind; [apply keeps_queue_log_info|]; intros _; apply keeps_ret).
Qed.

Lemma keeps_queue_report : keeps merge_queue (report env config).
Proof.
  unfold report. apply keeps_bind; [apply keeps_get_ctxt|]. intros c. apply keeps_ret.
Qed.

Lemma keeps_queue_merge : keeps merge_queue (_merge env config).
Proof.
  unfold _merge.
  apply keeps_bind; [apply keeps_get_ctxt|]. intros c.
  destruct (effective_method config c) as [method|]; [|apply keeps_ret].
  destruct (_get_commit_message (render env) (pull c) (commit_message config))
    as [cm|[message lineno|message|name|what]];
    try apply keeps_ret; try apply keeps_raise.
  apply keeps_bind; [apply keeps_queue_client_put|]. intros [e|].
  - apply keeps_bind; [apply keeps_queue_ctxt_update|]. intros _.
    apply keeps_bind; [apply keeps_get_ctxt|]. intros c'.
    destruct (merged (pull c')).
    + apply keeps_bind; [apply keeps_queue_log_info|]. intros _.
      apply keeps_queue_report.
    + apply keeps_bind; [apply keeps_queue_handle_merge_error|]. intros o.
      apply keeps_ret.
  - apply keeps_bind; [apply keeps_queue_ctxt_update|]. intros _.
    apply keeps_bind; [apply keeps_queue_log_info|]. intros _.
    apply keeps_queue_report.
Qed.

Lemma keeps_queue_run (missing_conditions : list Condition) :
  keeps merge_queue (run env config missing_conditions).
Proof.
  unfold run.
  apply keeps_bind; [apply keeps_queue_log_info|]. intros _.
  apply keeps_bind; [apply keeps_get_ctxt|]. intros c.
  destruct (merge_report env c (strict config)) as [output|].
  - apply keeps_bind; [apply keeps_queue_remove_pull_when_smart|]. intros _.
    apply keeps_ret.
  - destruct (strict_truthy (strict config) && is_behind c).
    + apply keeps_bind; [apply keeps_queue_sync_with_base_branch|]. intros o.
      apply keeps_ret.
    + apply keeps_try_finally;
        [apply keeps_queue_merge | apply keeps_queue_remove_pull_when_smart].
Qed.

Lemma keeps_queue_cancel (missing_conditions : list Condition) :
  keeps merge_queue (cancel env config missing_conditions).
Proof.
  unfold cancel.
  apply keeps_bind; [apply keeps_get_ctxt|]. intros c.
  destruct (strict_truthy (strict config)
            && _required_statuses_in_progress c missing_conditions).
  - apply keeps_ret.
  - apply keeps_bind; [apply keeps_queue_remove_pull_when_smart|]. intros _.
    apply keeps_ret.
Qed.

End NotSmart.

(** X2: when [strict] is not ["smart"], neither [run] nor [cancel]
    changes the merge queue, whatever the collaborators answer and however
    they are left. *)
Theorem queue_untouched_unless_smart (env : Env) (config : Config)
    (missing_conditions : list Condition) (w : World) :
  strict_is_smart (strict config) = false ->
  merge_queue (snd (run env config missing_conditions w)) = merge_queue w
  /\ merge_queue (snd (cancel env config missing_conditions w)) = merge_queue w.
Proof.
  intros Hnot. split.
  - apply keeps_queue_run, Hnot.
  - apply keeps_queue_cancel, Hnot.
Qed.

Lemma queue_untouched_unless_smart_witness :
  let env := Sample.env (PutClientSideError (mkClientError "Base branch was modified" 405))
               Sample.same in
  let w := Sample.world Sample.ctxt_ready in
  merge_queue (snd (run env Sample.config_strict [] w)) = merge_queue w
  /\ merge_queue (snd (cancel env Sample.config_strict [] w)) = merge_queue w.
Proof.
  exact (@queue_untouched_unless_smart
           (Sample.env (PutClientSideError (mkClientError "Base branch was modified" 405))
              Sample.same)
           Sample.config_strict [] (Sample.world Sample.ctxt_ready) eq_refl).
Defined.

(** ** The merge attempt, end to end *)

(** [_merge] up to the answer of the merge call. *)
Lemma merge_up_to_put (env : Env) (config : Config) (w : World)
    (method : MergeMethod) (cm : option (string * string)) :
  effective_method config (ctxt w) = Some method ->
  _get_commit_message (render env) (pull (ctxt w)) (commit_message config)
  = Return cm ->
  let data := merge_data (ctxt w) method cm in
  let called := emit (EvPut (number (pull (ctxt w))) data) w in
  _merge env config w
  = match remote_put env (ctxt w) data with
    | PutOk =>
        (ctxt_update env ;; log_info "merged" ;; report env config) called
    | PutClientSideError e =>
        (ctxt_update env ;;
         ctxt <- get_ctxt ;;
         if merged (pull ctxt) then
           log_info "merged in the meantime" ;;
           report env config
         else
           outcome <- _handle_merge_error env config e ;;
           ret (Some outcome)) called
    | PutRaises x => (Raise x, called)
    end.
Proof.
  intros Hmethod Hmessage data called.
  unfold _merge, bind at 1, get_ctxt. simpl fst. cbv iota beta.
  rewrite Hmethod, Hmessage.
  unfold bind at 1, client_put.
  fold data. fold called.
  destruct (remote_put env (ctxt w) data); reflexivity.
Qed.

(** [run] on the merge attempt: what [_merge] returns, and the world it
    leaves once the cleanup has run. *)
Lemma run_merge_attempt_result (env : Env) (config : Config)
    (missing_conditions : list Condition) (w : World) :
  merge_report env (ctxt w) (strict config) = None ->
  strict_truthy (strict config) && is_behind (ctxt w) = false ->
  run env config missing_conditions w
  = (let r := _merge env config (emit (EvLog "process merge") w) in
     (fst r, if strict_is_smart (strict config) then dequeued (snd r) else snd r)).
Proof.
  intros Hreport Hsync.
  rewrite (run_merge_attempt _ _ _ _ Hreport Hsync).
  unfold try_finally, remove_pull_when_smart.
  destruct (_merge env config (emit (EvLog "process merge") w)) as [r w1].
  destruct (strict_is_smart (strict config)); reflexivity.
Qed.

(** X3: under [strict == "smart"], when the merge call is refused because
    the base branch was modified and the refreshed pull request is not
    merged and may be updated, [run] returns "Base branch will be updated
    soon", but the entry that the synchronisation has just queued is
    removed by the cleanup of [run]: the pull request is not in the queue
    when [run] returns. *)
Theorem smart_resync_leaves_unqueued (env : Env) (config : Config)
    (missing_conditions : list Condition) (w : World)
    (method : MergeMethod) (cm : option (string * string))
    (e : HTTPClientSideError) :
  strict config = StrictSmart ->
  merge_report env (ctxt w) StrictSmart = None ->
  is_behind (ctxt w) = false ->
  effective_method config (ctxt w) = Some method ->
  _get_commit_message (render env) (pull (ctxt w)) (commit_message config)
  = Return cm ->
  remote_put env (ctxt w) (merge_data (ctxt w) method cm) = PutClientSideError e ->
  classify e = Resync ->
  merged (pull (remote_refresh env (ctxt w))) = false ->
  pull_base_is_modifiable (remote_refresh env (ctxt w)) = true ->
  let r := run env config missing_conditions w in
  let n := number (pull (remote_refresh env (ctxt w))) in
  fst r
  = Return (Some (None, "Base branch will be updated soon",
                  "The pull request base branch will be updated soon, and then merged."))
  /\ queued n (merge_queue (snd r)) = false
  /\ exists before,
       trace (snd r)
       = (before ++ [EvQueueAdd n (strict_method config); EvQueueRemove n])%list.
Proof.
  intros Hsmart Hreport Hbehind Hmethod Hmessage Hput Hclass Hmerged Hmodifiable r n.
  subst r. rewrite <- Hsmart in Hreport.
  rewrite run_merge_attempt_result
    by (rewrite ?Hbehind, ?andb_false_r; trivial).
  rewrite (@merge_up_to_put env config (emit (EvLog "process merge") w) method cm
             Hmethod Hmessage).
  simpl ctxt. rewrite Hput, Hsmart.
  unfold classify in Hclass.
  unfold bind, ctxt_update, get_ctxt, _handle_merge_error. simpl.
  rewrite Hmerged.
  destruct (PyStr.contains "Head branch was modified" (message e)); [discriminate|].
  destruct (PyStr.contains "Base branch was modified" (message e)).
  2: { destruct (Z.eqb (status_code e) 405); discriminate. }
  unfold log_info, _sync_with_base_branch, bind, get_ctxt, queue_add_pull. simpl.
  rewrite Hmodifiable, Hsmart. simpl.
  split; [reflexivity|].
  split; [apply queued_remove_pull|].
  eexists. unfold dequeued. simpl.
  rewrite <- app_assoc. simpl. reflexivity.
Qed.

Lemma smart_resync_leaves_unqueued_witness :
  let refused := mkClientError "Base branch was modified. Review and try the merge again." 405 in
  let r := run (Sample.env (PutClientSideError refused) Sample.same)
             Sample.config_smart [] (Sample.world Sample.ctxt_ready) in
  fst r
  = Return (Some (None, "Base branch will be updated soon",
                  "The pull request base branch will be updated soon, and then merged."))
  /\ queued 7 (merge_queue (snd r)) = false
  /\ exists before,
       trace (snd r)
       = (before ++ [EvQueueAdd 7 StrictMethodMerge; EvQueueRemove 7])%list.
Proof.
  exact (@smart_resync_leaves_unqueued
           (Sample.env
              (PutClientSideError
                 (mkClientError "Base branch was modified. Review and try the merge again." 405))
              Sample.same)
           Sample.config_smart [] (Sample.world Sample.ctxt_ready)
           MethodMerge (Some ("Fix bug", "Details here"))
           (mkClientError "Base branch was modified. Review and try the merge again." 405)
           eq_refl eq_refl eq_refl eq_refl eq_refl eq_refl eq_refl eq_refl eq_refl).
Defined.

(** X4: when the merge call returns, [run] refreshes the context and
    returns what [merge_report] says of the refreshed context, be it
    nothing; the context it leaves is the refreshed one. *)
Theorem merge_success_reports_refreshed (env : Env) (config : Config)
    (missing_conditions : list Condition) (w : World)
    (method : MergeMethod) (cm : option (string * string)) :
  merge_report env (ctxt w) (strict config) = None ->
  strict_truthy (strict config) && is_behind (ctxt w) = false ->
  effective_method config (ctxt w) = Some method ->
  _get_commit_message (render env) (pull (ctxt w)) (commit_message config)
  = Return cm ->
  remote_put env (ctxt w) (merge_data (ctxt w) method cm) = PutOk ->
  run env config missing_conditions w
  = (Return (merge_report env (remote_refresh env (ctxt w)) (strict config)),
     let merged_ :=
       mkWorld (remote_refresh env (ctxt w)) (merge_queue w)
         (trace w
          ++ [EvLog "process merge";
              EvPut (number (pull (ctxt w))) (merge_data (ctxt w) method cm);
              EvUpdate; EvLog "merged"])%list in
     if strict_is_smart (strict config) then dequeued merged_ else merged_).
Proof.
  intros Hreport Hsync Hmethod Hmessage Hput.
  rewrite (run_merge_attempt_result _ _ _ _ Hreport Hsync).
  rewrite (@merge_up_to_put env config (emit (EvLog "process merge") w) method cm
             Hmethod Hmessage).
  simpl ctxt. rewrite Hput.
  unfold bind, ctxt_update, log_info, report, get_ctxt, emit. simpl.
  repeat (rewrite <- app_assoc; simpl). reflexivity.
Qed.

Lemma merge_success_reports_refreshed_witness :
  fst (run (Sample.env PutOk Sample.same) Sample.config_smart []
         (Sample.world Sample.ctxt_ready))
  = Return None.
Proof.
  exact (f_equal fst
           (@merge_success_reports_refreshed (Sample.env PutOk Sample.same)
              Sample.config_smart [] (Sample.world Sample.ctxt_ready)
              MethodMerge (Some ("Fix bug", "Details here"))
              eq_refl eq_refl eq_refl eq_refl eq_refl)).
Defined.

(** X5: an exception of the commit-message derivation that is not one of
    the three template errors, and an exception of the merge call that is
    not a client-side error, leave [run] as they are: the first before
    any call of the merge endpoint, the second without a refresh of the
    context.  Under [strict == "smart"] the pull request is dequeued all
    the same. *)
Theorem other_exceptions_propagate (env : Env) (config : Config)
    (missing_conditions : list Condition) (w : World) (method : MergeMethod) :
  merge_report env (ctxt w) (strict config) = None ->
  strict_truthy (strict config) && is_behind (ctxt w) = false ->
  effective_method config (ctxt w) = Some method ->
  let r := run env config missing_conditions w in
  let left (w1 : World) :=
    if strict_is_smart (strict config) then dequeued w1 else w1 in
  (forall e,
     _get_commit_message (render env) (pull (ctxt w)) (commit_message config)
     = Raise e ->
     rendering_error e = false ->
     r = (Raise e, left (emit (EvLog "process merge") w)))
  /\ (forall cm x,
        _get_commit_message (render env) (pull (ctxt w)) (commit_message config)
        = Return cm ->
        remote_put env (ctxt w) (merge_data (ctxt w) method cm) = PutRaises x ->
        r = (Raise x,
             left (emit (EvPut (number (pull (ctxt w))) (merge_data (ctxt w) method cm))
                     (emit (EvLog "process merge") w)))).
Proof.
  intros Hreport Hsync Hmethod r left. subst r left.
  rewrite (run_merge_attempt_result _ _ _ _ Hreport Hsync).
  split.
  - intros e Hmessage Hother.
    assert (Hmerge : _merge env config (emit (EvLog "process merge") w)
                     = (Raise e, emit (EvLog "process merge") w)).
    { unfold _merge, bind, get_ctxt. simpl fst. cbv iota beta.
      change (ctxt (emit (EvLog "process merge") w)) with (ctxt w).
      rewrite Hmethod, Hmessage.
      destruct e; try discriminate. reflexivity. }
    rewrite Hmerge. reflexivity.
  - intros cm x Hmessage Hput.
    rewrite (@merge_up_to_put env config (emit (EvLog "process merge") w) method cm
               Hmethod Hmessage).
    simpl ctxt. rewrite Hput. reflexivity.
Qed.

Lemma other_exceptions_propagate_witness :
  let env := Sample.env (PutRaises (OtherException "HTTPServerSideError")) Sample.same in
  run env Sample.config_smart [] (Sample.world Sample.ctxt_ready)
  = (Raise (OtherException "HTTPServerSideError"),
     mkWorld Sample.ctxt_ready [Sample.other_entry]
       [EvLog "process merge";
        EvPut 7 (mkMergeData (Some "Fix bug") (Some "Details here") "c0ffee" MethodMerge);
        EvQueueRemove 7]).
Proof.
  exact (proj2
           (@other_exceptions_propagate
              (Sample.env (PutRaises (OtherException "HTTPServerSideError")) Sample.same)
              Sample.config_smart [] (Sample.world Sample.ctxt_ready) MethodMerge
              eq_refl eq_refl eq_refl)
           (Some ("Fix bug", "Details here")) (OtherException "HTTPServerSideError")
           eq_refl eq_refl).
Defined.

(** ** Statuses in progress *)

Lemma existsb_negb_of_forallb (A : Type) (p : A -> bool) (l : list A) :
  forallb p l = false -> existsb (fun x => negb (p x)) l = true.
Proof.
  induction l as [|x l IH]; simpl; [discriminate|].
  destruct (p x); simpl; [exact IH | reflexivity].
Qed.

(** X6: the statuses are in progress exactly when the pull request is not
    closed, at least one condition is missing, every missing condition is
    a status condition, and the states of the checks they match are none
    at all, or hold one that is pending or absent; a check that has
    failed does not end the wait while another one is pending. *)
Theorem required_statuses_in_progress_exactly (c : Context)
    (missing_conditions : list Condition) :
  _required_statuses_in_progress c missing_conditions
  = negb (String.eqb (state (pull c)) "closed")
    && match missing_conditions with [] => false | _ :: _ => true end
    && forallb is_status_condition missing_conditions
    && match matched_states (checks c) missing_conditions with
       | [] => true
       | states => existsb pending_or_none states
       end.
Proof.
  unfold _required_statuses_in_progress.
  destruct (String.eqb (state (pull c)) "closed"); [reflexivity|]. simpl negb.
  destruct (forallb is_status_condition missing_conditions) eqn:Hstatus.
  - rewrite (collect_status_conditions_all _ [] Hstatus). simpl app.
    destruct missing_conditions as [|c0 rest]; [reflexivity|].
    destruct (checks c) as [|item items]; reflexivity.
  - rewrite (collect_status_conditions_other _ []
               (existsb_negb_of_forallb _ _ Hstatus)).
    destruct missing_conditions; reflexivity.
Qed.

(** With the check [ci] pending and the check [lint] failed, conditions
    on both keep the action waiting. *)
Example pending_beside_failure :
  _required_statuses_in_progress Sample.ctxt_ci_pending
    [Sample.status_success_ci;
     mkCondition "status-success" (fun name => String.eqb name "lint")]
  = true.
Proof. reflexivity. Qed.

(** ** The classifier under the smart mode *)

(** X7: under [strict == "smart"] the classifier of merge errors raises
    nothing and returns one of three statuses: [cancelled], [failure] or
    none; it calls no endpoint. *)
Theorem smart_classifier_returns (env : Env) (config : Config)
    (e : HTTPClientSideError) (w : World) :
  strict config = StrictSmart ->
  let r := _handle_merge_error env config e w in
  (exists outcome,
     fst r = Return outcome
     /\ (status outcome = Some "cancelled"
         \/ status outcome = Some "failure"
         \/ status outcome = None))
  /\ puts (snd r) = puts w.
Proof.
  intros Hsmart r. split; [|apply keeps_puts_handle_merge_error].
  subst r. unfold _handle_merge_error.
  destruct (PyStr.contains "Head branch was modified" (message e)).
  { eexists. split; [reflexivity|]. left. reflexivity. }
  destruct (PyStr.contains "Base branch was modified" (message e)).
  { unfold _sync_with_base_branch. rewrite Hsmart.
    unfold bind, log_info, get_ctxt, queue_add_pull. simpl.
    destruct (pull_base_is_modifiable (ctxt w)); simpl.
    - eexists. split; [reflexivity|]. right. right. reflexivity.
    - eexists. split; [reflexivity|]. right. left. reflexivity. }
  destruct (Z.eqb (status_code e) 405).
  - eexists. split; [reflexivity|]. right. right. reflexivity.
  - eexists. split; [reflexivity|]. right. left. reflexivity.
Qed.

Lemma smart_classifier_returns_witness :
  let r := _handle_merge_error (Sample.env PutOk Sample.same) Sample.config_smart
             (mkClientError "Base branch was modified" 405)
             (Sample.world Sample.ctxt_behind_locked) in
  (exists outcome,
     fst r = Return outcome
     /\ (status outcome = Some "cancelled"
         \/ status outcome = Some "failure"
         \/ status outcome = None))
  /\ puts (snd r) = 0.
Proof.
  exact (@smart_classifier_returns (Sample.env PutOk Sample.same) Sample.config_smart
           (mkClientError "Base branch was modified" 405)
           (Sample.world Sample.ctxt_behind_locked) eq_refl).
Defined.

(** ** The payload of the merge call *)

(** X8: in the mode [title+body] the merge endpoint is called with the
    title and the body of the pull request as they are, whatever the
    template engine would make of them; an empty title or an empty body
    is left out of the payload.  The payload carries the head sha and the
    method settled on. *)
Theorem title_and_body_sent_verbatim (env : Env) (config : Config)
    (missing_conditions : list Condition) (w : World) (method : MergeMethod) :
  commit_message config = ModeTitleBody ->
  merge_report env (ctxt w) (strict config) = None ->
  strict_truthy (strict config) && is_behind (ctxt w) = false ->
  effective_method config (ctxt w) = Some method ->
  let pr := pull (ctxt w) in
  exists after,
    trace (snd (run env config missing_conditions w))
    = (trace w
       ++ EvLog "process merge"
       :: EvPut (number pr)
            (mkMergeData
               (if PyStr.truthy (title pr) then Some (title pr) else None)
               (if PyStr.truthy (body pr) then Some (body pr) else None)
               (head_sha pr) method)
       :: after)%list.
Proof.
  intros Hmode Hreport Hsync Hmethod pr.
  apply (@run_calls_endpoint env config missing_conditions w method
           (Some (title pr, body pr)) Hreport Hsync Hmethod).
  rewrite Hmode. reflexivity.
Qed.

Lemma title_and_body_sent_verbatim_witness :
  exists after,
    trace (snd (run (Sample.env PutOk Sample.refresh_merged)
                  (mkConfig MethodSquash FallbackMerge (StrictBool false)
                     StrictMethodMerge ModeTitleBody)
                  [] (mkWorld Sample.ctxt_bad_template [] [])))
    = ([]
       ++ EvLog "process merge"
       :: EvPut 9
            (mkMergeData (Some "Fix it")
               (Some (body Sample.pull_bad_template))
               "deadbeef" MethodSquash)
       :: after)%list.
Proof.
  exact (@title_and_body_sent_verbatim (Sample.env PutOk Sample.refresh_merged)
           (mkConfig MethodSquash FallbackMerge (StrictBool false)
              StrictMethodMerge ModeTitleBody)
           [] (mkWorld Sample.ctxt_bad_template [] []) MethodSquash
           eq_refl eq_refl eq_refl eq_refl).
Defined.

(** ** The block of the commit message *)

Lemma scan_lines_before_heading (pre rest : list string) :
  forallb (fun line => negb (is_commit_message_heading line)) pre = true ->
  scan_lines (pre ++ rest) false [] = scan_lines rest false [].
Proof.
  induction pre as [|line pre IH]; simpl; [reflexivity|].
  intros H. apply andb_prop in H as [Hline Hpre].
  unfold is_commit_message_heading in Hline.
  apply negb_true_iff in Hline. rewrite Hline. apply IH, Hpre.
Qed.

Lemma scan_lines_block (block tail acc : list string) :
  forallb (fun line => negb (is_title_line line)) block = true ->
  forallb (fun line => negb (is_commit_message_heading line)) block = true ->
  scan_lines (block ++ tail) true acc = scan_lines tail true (acc ++ block).
Proof.
  revert acc.
  induction block as [|line block IH]; intros acc Htitle Hheading; simpl.
  - rewrite app_nil_r. reflexivity.
  - simpl in Htitle, Hheading.
    apply andb_prop in Htitle as [Hline1 Htitle].
    apply andb_prop in Hheading as [Hline2 Hheading].
    unfold is_title_line in Hline1. unfold is_commit_message_heading in Hline2.
    apply negb_true_iff in Hline1. apply negb_true_iff in Hline2.
    rewrite Hline1, Hline2.
    rewrite (IH _ Htitle Hheading), <- app_assoc. reflexivity.
Qed.

Lemma scan_lines_end (tail acc : list string) :
  ends_block tail = true -> scan_lines tail true acc = (true, acc).
Proof.
  destruct tail as [|line tail]; simpl; [reflexivity|].
  intros H. apply andb_prop in H as [Htitle Hheading].
  unfold is_title_line in Htitle. unfold is_commit_message_heading in Hheading.
  apply negb_true_iff in Hheading. rewrite Hheading, Htitle. reflexivity.
Qed.

(** ** The matcher and what a pattern matches *)

Lemma append_nil_inv (a b : string) : a ++ b = "" -> a = "" /\ b = "".
Proof. destruct a; simpl; intros H; [auto | discriminate]. Qed.

Lemma append_cons_inv (a b : string) (c : ascii) (w : string) :
  a ++ b = String c w ->
  (a = "" /\ b = String c w) \/ (exists a', a = String c a' /\ w = a' ++ b).
Proof.
  destruct a as [|x a]; simpl; intros H.
  - left. auto.
  - right. injection H as -> <-. exists a. auto.
Qed.

#[local] Arguments Re.at_end : simpl never.

Lemma nullable_matches (r : Re.regex) (rest : string) :
  Re.nullable (Re.at_end rest) r = true -> matches r "" rest.
Proof.
  induction r; simpl; intros H; try discriminate.
  - constructor.
  - constructor. exact H.
  - apply andb_prop in H as [H1 H2].
    apply (MSeq (w1 := "") (w2 := "")); auto.
  - apply orb_prop in H as [H | H]; [apply MAltL | apply MAltR]; auto.
  - constructor.
Qed.

Lemma matches_nullable (r : Re.regex) (w rest : string) :
  matches r w rest -> w = "" -> Re.nullable (Re.at_end rest) r = true.
Proof.
  induction 1; intros Hw; simpl; try reflexivity; try discriminate; auto.
  - apply append_nil_inv in Hw as [-> ->].
    specialize (IHmatches1 eq_refl). specialize (IHmatches2 eq_refl).
    simpl in IHmatches1. rewrite IHmatches1, IHmatches2. reflexivity.
  - rewrite IHmatches; auto.
  - rewrite IHmatches; auto. apply orb_true_r.
Qed.

Lemma deriv_matches (r : Re.regex) (c : ascii) (w rest : string) :
  matches (Re.deriv (Re.at_end (String c (w ++ rest))) c r) w rest ->
  matches r (String c w) rest.
Proof.
  revert w rest.
  induction r as [| |p| |r1 IH1 r2 IH2|r1 IH1 r2 IH2|r1 IH1];
    intros w rest H; simpl in H.
  - inversion H.
  - inversion H.
  - destruct (p c) eqn:Hp; inversion H; subst. constructor. exact Hp.
  - inversion H.
  - assert (Hseq : forall w1 w2,
               w = w1 ++ w2 ->
               matches (Re.deriv (Re.at_end (String c (w ++ rest))) c r1) w1 (w2 ++ rest) ->
               matches r2 w2 rest ->
               matches (Re.Seq r1 r2) (String c w) rest).
    { intros w1 w2 -> Hd1 H2.
      rewrite append_assoc in Hd1. apply IH1 in Hd1.
      exact (MSeq Hd1 H2). }
    destruct (Re.nullable (Re.at_end (String c (w ++ rest))) r1) eqn:Hnull.
    + inversion H; subst.
      * match goal with
        | Hl : matches (Re.Seq _ _) _ _ |- _ => inversion Hl; subst
        end.
        eapply Hseq; eauto.
      * match goal with
        | Hr : matches (Re.deriv _ _ r2) _ _ |- _ => apply IH2 in Hr; rename Hr into H2
        end.
        apply nullable_matches in Hnull.
        exact (@MSeq r1 r2 "" (String c w) rest Hnull H2).
    + inversion H; subst. eapply Hseq; eauto.
  - inversion H; subst; [apply MAltL | apply MAltR]; auto.
  - inversion H; subst.
    match goal with
    | Hd1 : matches (Re.deriv _ _ r1) _ _, Hstar : matches (Re.Star r1) _ _ |- _ =>
        rewrite append_assoc in Hd1; apply IH1 in Hd1;
        exact (MStarCons Hd1 Hstar)
    end.
Qed.

Lemma matches_deriv (r : Re.regex) (cw rest : string) :
  matches r cw rest ->
  forall c w, cw = String c w ->
  matches (Re.deriv (Re.at_end (String c (w ++ rest))) c r) w rest.
Proof.
  induction 1 as [rest|p x rest Hp|rest Hend
                  |r1 r2 w1 w2 rest H1 IH1 H2 IH2
                  |r1 r2 w0 rest H1 IH1|r1 r2 w0 rest H2 IH2
                  |r rest|r w1 w2 rest H1 IH1 H2 IH2];
    intros c w Hcw; simpl; try discriminate.
  - injection Hcw as -> <-. rewrite Hp. constructor.
  - apply append_cons_inv in Hcw as [[-> ->] | [w1' [-> ->]]].
    + pose proof (matches_nullable H1 eq_refl) as Hnull. simpl in Hnull.
      rewrite Hnull. apply MAltR. apply IH2. reflexivity.
    + specialize (IH1 c w1' eq_refl). rewrite <- append_assoc in IH1.
      destruct (Re.nullable (Re.at_end (String c ((w1' ++ w2) ++ rest))) r1).
      * apply MAltL. exact (MSeq IH1 H2).
      * exact (MSeq IH1 H2).
  - apply MAltL. apply IH1, Hcw.
  - apply MAltR. apply IH2, Hcw.
  - apply append_cons_inv in Hcw as [[-> ->] | [w1' [-> ->]]].
    + apply (IH2 c w eq_refl).
    + specialize (IH1 c w1' eq_refl). rewrite <- append_assoc in IH1.
      exact (MSeq IH1 H2).
Qed.

(** [pattern.match(s)] succeeds exactly when the pattern matches a word
    the string starts with. *)
Lemma re_match_matches (r : Re.regex) (s : string) :
  Re.re_match r s = true <-> exists w rest, s = w ++ rest /\ matches r w rest.
Proof.
  revert r. induction s as [|c s IH]; intros r; simpl.
  - rewrite orb_false_r. split.
    + intros H. exists "", "". split; [reflexivity|].
      apply nullable_matches. exact H.
    + intros [w [rest [Hs H]]]. symmetry in Hs.
      apply append_nil_inv in Hs as [-> ->].
      apply (matches_nullable H eq_refl).
  - split.
    + intros H. apply orb_prop in H as [H | H].
      * exists "", (String c s). split; [reflexivity|].
        apply nullable_matches. exact H.
      * apply IH in H as [w [rest [-> H]]].
        exists (String c w), rest. split; [reflexivity|].
        apply deriv_matches. exact H.
    + intros [w [rest [Hs H]]]. symmetry in Hs.
      apply append_cons_inv in Hs as [[-> ->] | [w' [-> ->]]].
      * pose proof (matches_nullable H eq_refl) as Hnull. simpl in Hnull.
        rewrite Hnull. reflexivity.
      * apply orb_true_iff. right. apply IH.
        exists w', rest. split; [reflexivity|].
        apply (matches_deriv H eq_refl).
Qed.

(** *** The pieces of the two patterns *)

Lemma lower_hash (x : ascii) : PyStr.lower x = PyStr.lower "#" -> x = "#"%char.
Proof.
  destruct x as [[] [] [] [] [] [] [] []]; vm_compute; intros H;
    try discriminate; reflexivity.
Qed.

Lemma lower_blank (x : ascii) : PyStr.lower x = PyStr.lower " " -> x = " "%char.
Proof.
  destruct x as [[] [] [] [] [] [] [] []]; vm_compute; intros H;
    try discriminate; reflexivity.
Qed.

Lemma lower_colon (x : ascii) : PyStr.lower x = PyStr.lower ":" -> x = ":"%char.
Proof.
  destruct x as [[] [] [] [] [] [] [] []]; vm_compute; intros H;
    try discriminate; reflexivity.
Qed.

Lemma matches_lit_i (c : ascii) (w rest : string) :
  matches (Re.lit_i c) w rest <->
  exists x, w = String x "" /\ PyStr.lower x = PyStr.lower c.
Proof.
  unfold Re.lit_i. split.
  - intros H. inversion H; subst. eexists. split; [reflexivity|].
    apply Ascii.eqb_eq. assumption.
  - intros [x [-> Hx]]. constructor. apply Ascii.eqb_eq. exact Hx.
Qed.

Lemma matches_hashes (w rest : string) :
  matches (Re.Star (Re.lit_i "#")) w rest <-> exists k, w = hashes k.
Proof.
  split.
  - intros H. remember (Re.Star (Re.lit_i "#")) as r eqn:Hr.
    induction H; try discriminate.
    + exists 0. reflexivity.
    + injection Hr as ->.
      destruct (IHmatches2 eq_refl) as [k ->].
      apply matches_lit_i in H as [x [-> Hx]].
      apply lower_hash in Hx as ->.
      exists (S k). reflexivity.
  - intros [k ->]. revert rest. induction k as [|k IH]; intros rest; simpl.
    + constructor.
    + apply (@MStarCons (Re.lit_i "#") (String "#" "") (hashes k) rest).
      * apply matches_lit_i. eexists. split; reflexivity.
      * apply IH.
Qed.

Lemma matches_plus_hashes (w rest : string) :
  matches (Re.plus (Re.lit_i "#")) w rest <-> exists k, w = hashes (S k).
Proof.
  unfold Re.plus. split.
  - intros H. inversion H; subst.
    match goal with
    | H1 : matches (Re.lit_i _) _ _, H2 : matches (Re.Star _) _ _ |- _ =>
        apply matches_lit_i in H1 as [x [-> Hx]];
        apply lower_hash in Hx as ->;
        apply matches_hashes in H2 as [k ->]
    end.
    exists k. reflexivity.
  - intros [k ->].
    apply (@MSeq (Re.lit_i "#") (Re.Star (Re.lit_i "#")) (String "#" "") (hashes k) rest).
    + apply matches_lit_i. eexists. split; reflexivity.
    + apply matches_hashes. exists k. reflexivity.
Qed.

Lemma matches_str_i (s w rest : string) :
  matches (Re.str_i s) w rest <-> lowered w = lowered s.
Proof.
  revert w rest. induction s as [|c s IH]; intros w rest; simpl.
  - split.
    + intros H. inversion H. reflexivity.
    + destruct w; simpl; intros H; [constructor | discriminate].
  - split.
    + intros H. inversion H; subst.
      match goal with
      | H1 : matches (Re.lit_i _) _ _, H2 : matches (Re.str_i _) _ _ |- _ =>
          apply matches_lit_i in H1 as [x [-> Hx]]; apply IH in H2
      end.
      simpl. rewrite Hx. f_equal. assumption.
    + destruct w as [|x w]; simpl; intros H; [discriminate|].
      injection H as Hx Hw.
      apply (@MSeq (Re.lit_i c) (Re.str_i s) (String x "") w rest).
      * apply matches_lit_i. eexists. split; [reflexivity | exact Hx].
      * apply IH. exact Hw.
Qed.

Lemma matches_opt_blank (w rest : string) :
  matches (Re.opt (Re.lit_i " ")) w rest <-> w = "" \/ w = " ".
Proof.
  unfold Re.opt. split.
  - intros H. inversion H; subst.
    + match goal with
      | H1 : matches (Re.lit_i _) _ _ |- _ =>
          apply matches_lit_i in H1 as [x [-> Hx]]; apply lower_blank in Hx as ->
      end.
      right. reflexivity.
    + match goal with H1 : matches Re.Eps _ _ |- _ => inversion H1 end.
      left. reflexivity.
  - intros [-> | ->].
    + apply MAltR. constructor.
    + apply MAltL. apply matches_lit_i. eexists. split; reflexivity.
Qed.

Lemma matches_opt_colon (w rest : string) :
  matches (Re.opt (Re.lit_i ":")) w rest <-> w = "" \/ w = ":".
Proof.
  unfold Re.opt. split.
  - intros H. inversion H; subst.
    + match goal with
      | H1 : matches (Re.lit_i _) _ _ |- _ =>
          apply matches_lit_i in H1 as [x [-> Hx]]; apply lower_colon in Hx as ->
      end.
      right. reflexivity.
    + match goal with H1 : matches Re.Eps _ _ |- _ => inversion H1 end.
      left. reflexivity.
  - intros [-> | ->].
    + apply MAltR. constructor.
    + apply MAltL. apply matches_lit_i. eexists. split; reflexivity.
Qed.

Lemma all_space_app (a b : string) :
  all_space (a ++ b) = all_space a && all_space b.
Proof.
  induction a as [|c a IH]; simpl; [reflexivity|].
  rewrite IH, andb_assoc. reflexivity.
Qed.

Lemma matches_spaces (w rest : string) :
  matches (Re.Star Re.space) w rest <-> all_space w = true.
Proof.
  split.
  - intros H. remember (Re.Star Re.space) as r eqn:Hr.
    induction H; try discriminate.
    + reflexivity.
    + injection Hr as ->. unfold Re.space in H. inversion H; subst.
      simpl. rewrite (IHmatches2 eq_refl).
      match goal with Hc : PyStr.isspace _ = true |- _ => rewrite Hc end.
      reflexivity.
  - revert rest. induction w as [|c w IH]; intros rest; simpl; intros H.
    + constructor.
    + apply andb_prop in H as [Hc Hw].
      apply (@MStarCons Re.space (String c "") w rest).
      * constructor. exact Hc.
      * apply IH, Hw.
Qed.

Lemma at_end_all_space (rest : string) :
  Re.at_end rest = true -> all_space rest = true.
Proof.
  unfold Re.at_end. destruct rest as [|c [|c' rest]]; intros H;
    try discriminate; [reflexivity|].
  apply Ascii.eqb_eq in H as ->. reflexivity.
Qed.

Lemma title_of_shape (k : nat) (rest : string) :
  is_title_line (hashes (S k) ++ " " ++ rest) = true.
Proof.
  unfold is_title_line, MARKDOWN_TITLE_RE. apply re_match_matches.
  exists (hashes (S k) ++ " "), rest. split.
  - rewrite append_assoc. reflexivity.
  - apply (@MSeq _ _ (hashes (S k)) " " rest).
    + apply matches_plus_hashes. exists k. reflexivity.
    + apply matches_lit_i. eexists. split; reflexivity.
Qed.

(** X10: a line is a Markdown title for [_get_commit_message] exactly
    when it starts with one or more [#] followed by a blank. *)
Theorem title_line_exactly (line : string) :
  is_title_line line = true <->
  exists k rest, line = hashes (S k) ++ " " ++ rest.
Proof.
  split.
  - unfold is_title_line, MARKDOWN_TITLE_RE. rewrite re_match_matches.
    intros [w [rest [-> H]]]. inversion H; subst.
    match goal with
    | H1 : matches (Re.plus _) _ _, H2 : matches (Re.lit_i _) _ _ |- _ =>
        apply matches_plus_hashes in H1 as [k ->];
        apply matches_lit_i in H2 as [x [-> Hx]];
        apply lower_blank in Hx as ->
    end.
    exists k, rest. rewrite append_assoc. reflexivity.
  - intros [k [rest ->]]. apply title_of_shape.
Qed.

(** X11: a line is a "Commit Message" heading exactly when it is one or
    more [#], a blank, the words "Commit Message" in any mix of cases, at
    most one blank, at most one colon, and then white space only. *)
Theorem commit_message_heading_exactly (line : string) :
  is_commit_message_heading line = true <->
  exists k phrase blank_ colon spaces,
    line = hashes (S k) ++ " " ++ phrase ++ blank_ ++ colon ++ spaces
    /\ lowered phrase = "commit message"
    /\ (blank_ = "" \/ blank_ = " ")
    /\ (colon = "" \/ colon = ":")
    /\ all_space spaces = true.
Proof.
  unfold is_commit_message_heading, MARKDOWN_COMMIT_MESSAGE_RE.
  rewrite re_match_matches. split.
  - intros [w [rest [-> H]]].
    inversion H as [| | |? ? w1 x1 ? H1 K1| | | |]; subst.
    inversion K1 as [| | |? ? w2 x2 ? H2 K2| | | |]; subst.
    inversion K2 as [| | |? ? w3 x3 ? H3 K3| | | |]; subst.
    inversion K3 as [| | |? ? w4 x4 ? H4 K4| | | |]; subst.
    inversion K4 as [| | |? ? w5 x5 ? H5 K5| | | |]; subst.
    inversion K5 as [| | |? ? w6 x6 ? H6 K6| | | |]; subst.
    inversion K6; subst.
    apply matches_plus_hashes in H1 as [k ->].
    apply matches_lit_i in H2 as [x [-> Hx]]. apply lower_blank in Hx as ->.
    apply (matches_str_i "Commit Message") in H3.
    change (lowered "Commit Message") with "commit message" in H3.
    apply matches_opt_blank in H4.
    apply matches_opt_colon in H5.
    apply matches_spaces in H6.
    exists k, w3, w4, w5, (w6 ++ rest). repeat split; trivial.
    + simpl. rewrite !append_assoc. simpl. rewrite !append_assoc. reflexivity.
    + rewrite all_space_app, H6. simpl. apply at_end_all_space. assumption.
  - intros [k [phrase [blank_ [colon [spaces [-> [Hphrase [Hblank [Hcolon Hspaces]]]]]]]]].
    exists (hashes (S k) ++ " " ++ phrase ++ blank_ ++ colon ++ spaces ++ ""), "".
    split.
    + rewrite !append_assoc, !append_empty_r. reflexivity.
    + apply MSeq; [apply matches_plus_hashes; exists k; reflexivity|].
      apply (@MSeq _ _ " "); [apply matches_lit_i; eexists; split; reflexivity|].
      apply MSeq; [apply (matches_str_i "Commit Message"); exact Hphrase|].
      apply MSeq; [apply matches_opt_blank; exact Hblank|].
      apply MSeq; [apply matches_opt_colon; exact Hcolon|].
      apply MSeq; [apply matches_spaces; exact Hspaces|].
      constructor. reflexivity.
Qed.

(** A "Commit Message" heading starts as a title does. *)
Lemma heading_shape (line : string) :
  is_commit_message_heading line = true ->
  exists k rest, line = hashes (S k) ++ " " ++ rest.
Proof.
  unfold is_commit_message_heading, MARKDOWN_COMMIT_MESSAGE_RE.
  rewrite re_match_matches. intros [w [rest [-> H]]].
  inversion H as [| | |? ? w1 x1 ? H1 K1| | | |]; subst.
  inversion K1 as [| | |? ? w2 x2 ? H2 K2| | | |]; subst.
  apply matches_plus_hashes in H1 as [k ->].
  apply matches_lit_i in H2 as [x [-> Hx]]. apply lower_blank in Hx as ->.
  exists k, (x2 ++ rest). simpl. rewrite !append_assoc. reflexivity.
Qed.

(** Every "Commit Message" heading is a Markdown title; the loop of
    [_get_commit_message] tests for the heading first. *)
Lemma heading_is_title (line : string) :
  is_commit_message_heading line = true -> is_title_line line = true.
Proof.
  intros H. apply heading_shape in H as [k [rest ->]]. apply title_of_shape.
Qed.

(** ** The message that is derived *)

Lemma no_title_no_heading (block : list string) :
  forallb (fun line => negb (is_title_line line)) block = true ->
  forallb (fun line => negb (is_commit_message_heading line)) block = true.
Proof.
  induction block as [|line block IH]; simpl; [reflexivity|].
  intros H. apply andb_prop in H as [Hline Hblock].
  rewrite (IH Hblock), andb_true_r.
  destruct (is_commit_message_heading line) eqn:Hheading; [|reflexivity].
  rewrite (heading_is_title _ Hheading) in Hline. discriminate.
Qed.

(** X9: the lines [_get_commit_message] collects.  When the lines of the
    body are some lines without a "Commit Message" heading, then such a
    heading, then a block of lines none of which is a title, then either
    nothing or a title that is not such a heading followed by anything,
    the loop finds the heading and collects exactly the block: what
    precedes the heading and what follows the closing title is left
    out. *)
Theorem scan_collects_block (pr : Pull)
    (pre : list string) (heading : string) (block tail : list string) :
  body_lines pr = (pre ++ heading :: block ++ tail)%list ->
  forallb (fun line => negb (is_commit_message_heading line)) pre = true ->
  is_commit_message_heading heading = true ->
  forallb (fun line => negb (is_title_line line)) block = true ->
  ends_block tail = true ->
  scan_body pr = (true, block).
Proof.
  intros Hlines Hpre Hheading Htitle Hend.
  unfold scan_body. rewrite Hlines.
  rewrite (scan_lines_before_heading _ _ Hpre). simpl.
  unfold is_commit_message_heading in Hheading. rewrite Hheading.
  rewrite (scan_lines_block _ _ _ Htitle (no_title_no_heading _ Htitle)). simpl.
  apply scan_lines_end, Hend.
Qed.

Lemma scan_collects_block_witness :
  scan_body Sample.pull_open = (true, ["Fix bug"; ""; "Details here"]).
Proof.
  apply (@scan_collects_block Sample.pull_open ["intro"] "# Commit Message"
           ["Fix bug"; ""; "Details here"] ["# Another Heading"; "ignored"]);
    vm_compute; reflexivity.
Defined.

Lemma lstrip_head (s : string) (c : ascii) (r : string) :
  PyStr.lstrip s = String c r -> PyStr.isspace c = false.
Proof.
  induction s as [|x s IH]; simpl; [discriminate|].
  destruct (PyStr.isspace x) eqn:Hx; [exact IH|].
  intros H. injection H as <- _. exact Hx.
Qed.

Lemma rstrip_cons (c : ascii) (r : string) :
  PyStr.isspace c = false ->
  PyStr.rstrip (String c r) = String c (PyStr.rstrip r).
Proof.
  intros Hc. simpl. destruct (PyStr.rstrip r); [rewrite Hc|]; reflexivity.
Qed.

Lemma strip_head (s : string) (c : ascii) (r : string) :
  PyStr.strip s = String c r -> PyStr.isspace c = false.
Proof.
  unfold PyStr.strip.
  destruct (PyStr.lstrip s) as [|x y] eqn:Hl; [discriminate|].
  pose proof (@lstrip_head s x y Hl) as Hx.
  rewrite (@rstrip_cons x y Hx). intros H. injection H as <- _. exact Hx.
Qed.

Lemma rstrip_idem (s : string) : PyStr.rstrip (PyStr.rstrip s) = PyStr.rstrip s.
Proof.
  induction s as [|c s IH]; [reflexivity|].
  simpl. destruct (PyStr.rstrip s) as [|x kept] eqn:Hs.
  - destruct (PyStr.isspace c) eqn:Hc; [reflexivity|].
    simpl. rewrite Hc. reflexivity.
  - change (PyStr.rstrip (String c (String x kept)))
      with (match PyStr.rstrip (String x kept) with
            | "" => if PyStr.isspace c then "" else String c ""
            | String _ _ as k => String c k
            end).
    rewrite IH. reflexivity.
Qed.

Lemma lstrip_fixed (s : string) :
  (forall c r, s = String c r -> PyStr.isspace c = false) ->
  PyStr.lstrip s = s.
Proof.
  destruct s as [|c r]; [reflexivity|].
  intros H. simpl. rewrite (H c r eq_refl). reflexivity.
Qed.

Lemma strip_idem (s : string) : PyStr.strip (PyStr.strip s) = PyStr.strip s.
Proof.
  unfold PyStr.strip at 1.
  rewrite (@lstrip_fixed (PyStr.strip s)).
  - unfold PyStr.strip. apply rstrip_idem.
  - intros c r H. apply (@strip_head s c r H).
Qed.

Lemma mentions_lstrip (c : ascii) (s : string) :
  mentions c s = false -> mentions c (PyStr.lstrip s) = false.
Proof.
  induction s as [|x s IH]; simpl; [trivial|].
  intros H. apply orb_false_elim in H as [Hx Hs].
  destruct (PyStr.isspace x); [apply IH, Hs|].
  simpl. rewrite Hx, Hs. reflexivity.
Qed.

Lemma mentions_rstrip (c : ascii) (s : string) :
  mentions c s = false -> mentions c (PyStr.rstrip s) = false.
Proof.
  induction s as [|x s IH]; simpl; [trivial|].
  intros H. apply orb_false_elim in H as [Hx Hs].
  specialize (IH Hs).
  destruct (PyStr.rstrip s) as [|y kept].
  - destruct (PyStr.isspace x); simpl; [reflexivity|].
    rewrite Hx. reflexivity.
  - simpl in *. rewrite Hx, IH. reflexivity.
Qed.

Lemma mentions_strip (c : ascii) (s : string) :
  mentions c s = false -> mentions c (PyStr.strip s) = false.
Proof. intros H. apply mentions_rstrip, mentions_lstrip, H. Qed.

(** No field of [s.split(sep)] holds the separator. *)
Lemma split_fields (sep : ascii) (s : string) :
  Forall (fun field => mentions sep field = false) (PyStr.split sep s).
Proof.
  induction s as [|c s IH]; simpl.
  - constructor; [reflexivity | constructor].
  - destruct (Ascii.eqb c sep) eqn:Hc.
    + constructor; [reflexivity | exact IH].
    + destruct (PyStr.split sep s) as [|field fields].
      * constructor; [simpl; rewrite Hc; reflexivity | constructor].
      * inversion IH; subst.
        constructor; [simpl; rewrite Hc; assumption | assumption].
Qed.

Lemma scan_lines_subset (lines : list string) (found : bool)
    (acc : list string) (line : string) :
  In line (snd (scan_lines lines found acc)) -> In line acc \/ In line lines.
Proof.
  revert found acc.
  induction lines as [|l lines IH]; intros found acc; simpl; [auto|].
  destruct (Re.re_match MARKDOWN_COMMIT_MESSAGE_RE l).
  { intros H. apply IH in H as [H | H]; auto. }
  destruct (found && Re.re_match MARKDOWN_TITLE_RE l); [simpl; auto|].
  destruct found.
  - intros H. apply IH in H as [H | H]; [|auto].
    apply in_app_or in H as [H | [<- | []]]; auto.
  - intros H. apply IH in H as [H | H]; auto.
Qed.

Lemma dropwhile_subset (A : Type) (p : A -> bool) (l : list A) (x : A) :
  In x (dropwhile p l) -> In x l.
Proof.
  induction l as [|y l IH]; simpl; [trivial|].
  destruct (p y); [right; apply IH; assumption | trivial].
Qed.

Lemma dropwhile_head (A : Type) (p : A -> bool) (l : list A) (x : A) (r : list A) :
  dropwhile p l = x :: r -> p x = false.
Proof.
  induction l as [|y l IH]; simpl; [discriminate|].
  destruct (p y) eqn:Hy; [exact IH|].
  intros H. injection H as <- _. exact Hy.
Qed.

Lemma join_stripped_head (lines : list string) :
  (forall l r, lines = l :: r -> blank l = false) ->
  PyStr.lstrip (PyStr.join (String PyStr.LF "") (map PyStr.strip lines))
  = PyStr.join (String PyStr.LF "") (map PyStr.strip lines).
Proof.
  intros Hhead. apply lstrip_fixed. intros c r H.
  destruct lines as [|l rest]; [discriminate|].
  specialize (Hhead l rest eq_refl). unfold blank in Hhead.
  apply negb_false_iff in Hhead.
  destruct (PyStr.strip l) as [|x y] eqn:Hl; [discriminate|].
  pose proof (@strip_head l x y Hl) as Hx.
  simpl in H. rewrite Hl in H.
  destruct (map PyStr.strip rest); simpl in H; injection H as <- _; exact Hx.
Qed.

(** X12: what the default mode hands to the template engine.  The result
    of [_get_commit_message] is the rendering of two templates taken from
    the body, the title first, an error of the title going before one of
    the body; without templates nothing is rendered and there is no
    message.  The title template is one line, not empty, without white
    space at either end; the body template does not start with white
    space. *)
Theorem commit_message_templates_shape (render : Pull -> string -> result string)
    (pr : Pull) :
  _get_commit_message render pr ModeDefault
  = match commit_message_templates pr with
    | None => Return None
    | Some (title_template, body_template) =>
        match render pr title_template with
        | Raise e => Raise e
        | Return rendered_title =>
            match render pr body_template with
            | Raise e => Raise e
            | Return rendered_body => Return (Some (rendered_title, rendered_body))
            end
        end
    end
  /\ forall title_template body_template,
       commit_message_templates pr = Some (title_template, body_template) ->
       title_template <> ""
       /\ PyStr.strip title_template = title_template
       /\ mentions PyStr.LF title_template = false
       /\ PyStr.lstrip body_template = body_template.
Proof.
  unfold commit_message_templates, _get_commit_message.
  destruct (negb (PyStr.truthy (body pr))).
  { split; [reflexivity | discriminate]. }
  pose proof (fun line => @scan_lines_subset (body_lines pr) false [] line) as Hsub.
  fold (scan_body pr) in Hsub.
  destruct (scan_body pr) as [found message_lines]. simpl in Hsub.
  destruct (dropwhile blank message_lines) as [|first rest] eqn:Hdrop.
  { split; [reflexivity | discriminate]. }
  destruct found.
  2: { split; [reflexivity | discriminate]. }
  split; [reflexivity|].
  intros t b H. injection H as <- <-.
  pose proof (@dropwhile_head _ blank message_lines first rest Hdrop) as Hfirst.
  repeat split.
  - unfold blank in Hfirst. apply negb_false_iff in Hfirst.
    intros Hempty. rewrite Hempty in Hfirst. discriminate.
  - apply strip_idem.
  - apply mentions_strip.
    assert (Hin : In first (body_lines pr)).
    { destruct (Hsub first) as [[] | Hin]; [|exact Hin].
      apply (@dropwhile_subset _ blank). rewrite Hdrop. left. reflexivity. }
    pose proof (split_fields PyStr.LF (body pr)) as Hfields.
    rewrite Forall_forall in Hfields. apply Hfields, Hin.
  - apply join_stripped_head. intros l r Hl.
    apply (@dropwhile_head _ blank rest l r Hl).
Qed.

(** The blank lines that end a block are kept: the body template ends
    with the line feeds that separate them. *)
Example trailing_blank_lines_kept :
  commit_message_templates
    (mkPull 1 "open" false false "" "" ""
       ("# Commit Message" ++ Sample.LFs ++ "Title" ++ Sample.LFs ++ Sample.LFs
        ++ "Text" ++ Sample.LFs ++ "  " ++ Sample.LFs))
  = Some ("Title", "Text" ++ Sample.LFs ++ Sample.LFs).
Proof. vm_compute. reflexivity. Qed.

(** ** Matching an event *)

Section Matching.

Import TestBase.

Lemma match_dict_step (data : json) (key : string) (expected : json)
    (rest : list (string * json)) :
  _match data (JDict ((key, expected) :: rest))
  = match contains_key key data with
    | Fails e => Fails e
    | Done false => Done false
    | Done true =>
        match getitem data key with
        | Fails e => Fails e
        | Done value =>
            match _match value expected with
            | Fails e => Fails e
            | Done false => Done false
            | Done true => _match data (JDict rest)
            end
        end
    end.
Proof. reflexivity. Qed.

(** Data that holds every expected key with a matching value matches. *)
Lemma match_dict_all (data expected : list (string * json)) :
  Forall (fun item =>
            exists value,
              dict_get (fst item) data = Some value
              /\ _match value (snd item) = Done true)
    expected ->
  _match (JDict data) (JDict expected) = Done true.
Proof.
  induction expected as [|[key exp] rest IH]; intros H; [reflexivity|].
  inversion H as [|? ? [value [Hget Hvalue]] Hrest]; subst. simpl in Hget, Hvalue.
  rewrite match_dict_step. unfold contains_key, getitem, has_key.
  rewrite Hget, Hvalue. apply IH, Hrest.
Qed.

(** X13: a [dict] of data matches a [dict] of expectations exactly when
    every expected key is in the data and its value matches what is
    expected of it; the keys the expectations do not name are not looked
    at. *)
Theorem match_dict_exactly (data expected : list (string * json)) :
  _match (JDict data) (JDict expected) = Done true <->
  Forall (fun item =>
            exists value,
              dict_get (fst item) data = Some value
              /\ _match value (snd item) = Done true)
    expected.
Proof.
  split; [|apply match_dict_all].
  induction expected as [|[key exp] rest IH]; [constructor|].
  rewrite match_dict_step. unfold contains_key, getitem, has_key.
  destruct (dict_get key data) as [value|] eqn:Hget; [|discriminate].
  destruct (_match value exp) as [[|]|e] eqn:Hvalue; try discriminate.
  intros H. constructor; [|apply IH, H].
  exists value. simpl. auto.
Qed.

(** Against expectations that name a key, data that is not a [dict]
    never matches: a number, a boolean or [None] raises [TypeError]; a
    string or a list gives [False], or raises [TypeError] when the key
    occurs in it. *)
Lemma match_wants_a_dict (data : json) (key : string) (expected : json)
    (rest : list (string * json)) :
  is_dict data = false ->
  _match data (JDict ((key, expected) :: rest))
  = match data with
    | JStr s => if PyStr.contains key s then Fails TypeError else Done false
    | JList elems =>
        if existsb (fun x => py_eq x (JStr key)) elems
        then Fails TypeError else Done false
    | _ => Fails TypeError
    end.
Proof.
  intros Hdata. rewrite match_dict_step.
  destruct data as [| | |s|elems|items]; try reflexivity; discriminate.
Qed.

Lemma match_wants_a_dict_witness :
  _match JNull (JDict [("state", JStr "open")]) = Fails TypeError.
Proof.
  exact (@match_wants_a_dict JNull "state" (JStr "open") [] eq_refl).
Defined.

Lemma dict_get_unique (items : list (string * json)) :
  well_formed (JDict items) = true ->
  Forall (fun item => dict_get (fst item) items = Some (snd item)) items.
Proof.
  induction items as [|[key value] rest IH]; intros Hwf; [constructor|].
  simpl in Hwf.
  apply andb_prop in Hwf as [Hwf Hrest]. apply andb_prop in Hwf as [Hkey _].
  constructor.
  - simpl. rewrite String.eqb_refl. reflexivity.
  - specialize (IH Hrest). rewrite Forall_forall in *.
    intros [k v] Hin. specialize (IH _ Hin). simpl in *.
    destruct (String.eqb key k) eqn:Hk; [|exact IH].
    apply String.eqb_eq in Hk as ->.
    unfold has_key in Hkey. rewrite IH in Hkey. discriminate.
Qed.

Lemma well_formed_values (items : list (string * json)) :
  well_formed (JDict items) = true ->
  Forall (fun item => well_formed (snd item) = true) items.
Proof.
  induction items as [|[key value] rest IH]; intros Hwf; [constructor|].
  simpl in Hwf.
  apply andb_prop in Hwf as [Hwf Hrest]. apply andb_prop in Hwf as [_ Hvalue].
  constructor; [exact Hvalue | apply IH, Hrest].
Qed.

Lemma py_eq_list (xs ys : list json) :
  py_eq (JList xs) (JList ys) = all_eq xs ys.
Proof. reflexivity. Qed.

Lemma py_eq_dict (xs ys : list (string * json)) :
  py_eq (JDict xs) (JDict ys)
  = Nat.eqb (List.length xs) (List.length ys) && all_in ys xs.
Proof. reflexivity. Qed.

Lemma all_in_refl (ys xs : list (string * json)) :
  Forall (fun item => dict_get (fst item) ys = Some (snd item)) xs ->
  Forall (fun item => py_eq (snd item) (snd item) = true) xs ->
  all_in ys xs = true.
Proof.
  induction xs as [|[k v] xs IH]; intros Hget Heq; [reflexivity|].
  inversion Hget; subst. inversion Heq; subst. simpl in *.
  match goal with Hk : dict_get k ys = Some v |- _ => rewrite Hk end.
  match goal with Hv : py_eq v v = true |- _ => rewrite Hv end.
  apply IH; assumption.
Qed.

(** [x == x] holds of a value whose keys stand once. *)
Lemma py_eq_refl (data : json) : well_formed data = true -> py_eq data data = true.
Proof.
  induction data as [|b|n|s|elems IH|items IH] using json_induction; intros Hwf.
  - reflexivity.
  - destruct b; reflexivity.
  - apply Z.eqb_refl.
  - apply String.eqb_refl.
  - rewrite py_eq_list. simpl in Hwf.
    induction elems as [|x xs IHxs]; [reflexivity|].
    simpl in Hwf. apply andb_prop in Hwf as [Hx Hxs].
    inversion IH; subst. simpl.
    rewrite IHxs by assumption.
    match goal with
    | Hp : well_formed x = true -> py_eq x x = true |- _ => rewrite Hp by assumption
    end.
    reflexivity.
  - rewrite py_eq_dict, Nat.eqb_refl. simpl.
    apply all_in_refl; [apply dict_get_unique, Hwf|].
    pose proof (well_formed_values _ Hwf) as Hvalues.
    rewrite Forall_forall in *. intros item Hin. apply IH; auto.
Qed.

(** X14: an event matches itself: data whose keys stand once matches
    expectations equal to it. *)
Theorem match_reflexive (data : json) :
  well_formed data = true -> _match data data = Done true.
Proof.
  induction data as [|b|n|s|elems IH|items IH] using json_induction; intros Hwf.
  - reflexivity.
  - destruct b; reflexivity.
  - simpl. rewrite Z.eqb_refl. reflexivity.
  - simpl. rewrite String.eqb_refl. reflexivity.
  - assert (Hstep : _match (JList elems) (JList elems)
                    = Done (py_eq (JList elems) (JList elems))) by reflexivity.
    rewrite Hstep, (py_eq_refl _ Hwf). reflexivity.
  - apply match_dict_all.
    pose proof (dict_get_unique _ Hwf) as Hget.
    pose proof (well_formed_values _ Hwf) as Hvalues.
    rewrite Forall_forall in *. intros item Hin.
    exists (snd item). split; [apply Hget, Hin | apply IH; auto].
Qed.

Lemma match_reflexive_witness :
  _match
    (JDict [("action", JStr "opened");
            ("pull_request", JDict [("number", JInt 7); ("labels", JList [])])])
    (JDict [("action", JStr "opened");
            ("pull_request", JDict [("number", JInt 7); ("labels", JList [])])])
  = Done true.
Proof.
  apply (@match_reflexive
           (JDict [("action", JStr "opened");
                   ("pull_request",
                    JDict [("number", JInt 7); ("labels", JList [])])])).
  reflexivity.
Defined.

End Matching.

(** ** Removing the useless links *)

Section Links.

Import TestBase.

Lemma links_dict_step (popped : list string) (items : list (string * json)) :
  remove_useless_links_from popped (JDict items)
  = let gone := key_in (popped ++ useless_keys)%list in
    let kept := filter (fun item => negb (gone (fst item))) items in
    match pop_inside "organization" kept with
    | Fails e => Fails e
    | Done _ =>
        match pop_inside "check_run" kept with
        | Fails e => Fails e
        | Done _ =>
            match links_loop gone items with
            | Fails e => Fails e
            | Done items' => Done (JDict items')
            end
        end
    end.
Proof. reflexivity. Qed.

Lemma links_list_step (popped : list string) (elems : list json) :
  remove_useless_links_from popped (JList elems)
  = match links_each elems with
    | Fails e => Fails e
    | Done elems' => Done (JList elems')
    end.
Proof. reflexivity. Qed.

Lemma links_loop_step (gone : string -> bool) (key : string) (value : json)
    (rest : list (string * json)) :
  links_loop gone ((key, value) :: rest)
  = if gone key then links_loop gone rest
    else if endswith "url" key then links_loop gone rest
    else if endswith "_at" key then links_loop gone rest
    else
      match remove_useless_links_from (popped_inside key) value with
      | Fails e => Fails e
      | Done value' =>
          match links_loop gone rest with
          | Fails e => Fails e
          | Done rest' => Done ((key, value') :: rest')
          end
      end.
Proof. reflexivity. Qed.

Lemma key_in_app (a b : list string) (key : string) :
  key_in (a ++ b) key = key_in a key || key_in b key.
Proof. unfold key_in. apply existsb_app. Qed.

Lemma dict_get_filter (gone : string -> bool) (key : string)
    (items : list (string * json)) :
  dict_get key (filter (fun item => negb (gone (fst item))) items)
  = if gone key then None else dict_get key items.
Proof.
  induction items as [|[k v] rest IH]; simpl.
  - destruct (gone key); reflexivity.
  - destruct (gone k) eqn:Hk; simpl.
    + rewrite IH. destruct (String.eqb k key) eqn:Heq; [|reflexivity].
      apply String.eqb_eq in Heq as <-. rewrite Hk. reflexivity.
    + destruct (String.eqb k key) eqn:Heq; [|exact IH].
      apply String.eqb_eq in Heq as <-. rewrite Hk. reflexivity.
Qed.

Lemma dict_get_in (key : string) (value : json) (items : list (string * json)) :
  dict_get key items = Some value -> In (key, value) items.
Proof.
  induction items as [|[k v] rest IH]; simpl; [discriminate|].
  destruct (String.eqb k key) eqn:Heq.
  - apply String.eqb_eq in Heq as ->. intros H. injection H as ->. left. reflexivity.
  - intros H. right. apply IH, H.
Qed.

Lemma pop_inside_dict (key : string) (items : list (string * json)) (value : json) :
  pop_inside key items = Done tt ->
  dict_get key items = Some value -> is_dict value = true.
Proof.
  unfold pop_inside. intros Hpop Hget. rewrite Hget in Hpop.
  destruct value; try discriminate. reflexivity.
Qed.

Lemma pop_inside_done (key : string) (items : list (string * json)) :
  (forall value, dict_get key items = Some value -> is_dict value = true) ->
  pop_inside key items = Done tt.
Proof.
  unfold pop_inside. intros H.
  destruct (dict_get key items) as [value|]; [|reflexivity].
  specialize (H value eq_refl). destruct value; try discriminate. reflexivity.
Qed.

Lemma popped_inside_cases (key : string) :
  popped_inside key = []
  \/ (key = "organization" /\ popped_inside key = ["description"])
  \/ (key = "check_run" /\ popped_inside key = ["checks_suite"]).
Proof.
  unfold popped_inside.
  destruct (String.eqb key "organization") eqn:Horg.
  { apply String.eqb_eq in Horg. right. left. auto. }
  destruct (String.eqb key "check_run") eqn:Hrun.
  { apply String.eqb_eq in Hrun. right. right. auto. }
  left. reflexivity.
Qed.

Lemma scrubbed_dict (items : list (string * json)) :
  scrubbed (JDict items) = true <-> Forall scrubbed_item items.
Proof.
  induction items as [|[key value] rest IH].
  - split; [constructor | reflexivity].
  - change (scrubbed (JDict ((key, value) :: rest)))
      with (useful_key key && scrubbed value
            && without_keys (popped_inside key) value
            && match popped_inside key with
               | [] => true
               | _ :: _ => is_dict value
               end
            && scrubbed (JDict rest)).
    split.
    + intros H.
      apply andb_prop in H as [H Hrest]. apply andb_prop in H as [H Hdict].
      apply andb_prop in H as [H Hwithout]. apply andb_prop in H as [Hkey Hvalue].
      constructor; [|apply IH, Hrest].
      repeat split; trivial. simpl.
      destruct (popped_inside key); [congruence | trivial].
    + intros H. inversion H as [|? ? [Hkey [Hvalue [Hwithout Hdict]]] Hrest]; subst.
      simpl in *. rewrite Hkey, Hvalue, Hwithout. rewrite (proj2 IH Hrest).
      destruct (popped_inside key); [reflexivity|].
      rewrite Hdict by discriminate. reflexivity.
Qed.

Lemma links_loop_scrubbed (popped : list string) (items items' : list (string * json)) :
  Forall (fun item =>
            key_in (popped ++ useless_keys) (fst item) = false ->
            scrubs (popped_inside (fst item)) (snd item)
            /\ (popped_inside (fst item) <> [] -> is_dict (snd item) = true))
    items ->
  links_loop (key_in (popped ++ useless_keys)) items = Done items' ->
  Forall (fun item =>
            scrubbed_item item /\ key_in popped (fst item) = false)
    items'.
Proof.
  revert items'.
  induction items as [|[key value] rest IH]; intros items' Hitems Hloop.
  - injection Hloop as <-. constructor.
  - inversion Hitems as [|? ? Hitem Hrest]; subst. simpl in Hitem.
    rewrite links_loop_step in Hloop.
    destruct (key_in (popped ++ useless_keys) key) eqn:Hgone; [auto|].
    destruct (endswith "url" key) eqn:Hurl; [auto|].
    destruct (endswith "_at" key) eqn:Hat; [auto|].
    destruct (Hitem eq_refl) as [Hscrubs Hdict].
    destruct (remove_useless_links_from (popped_inside key) value)
      as [value'|e] eqn:Hvalue; [|discriminate].
    destruct (links_loop (key_in (popped ++ useless_keys)) rest)
      as [rest'|e] eqn:Hrest'; [|discriminate].
    injection Hloop as <-.
    destruct (Hscrubs value' Hvalue) as [Hs [Hw Hd]].
    rewrite key_in_app in Hgone. apply orb_false_elim in Hgone as [Hpopped Huseless].
    constructor; [|apply IH; auto].
    split; [|exact Hpopped].
    unfold scrubbed_item, useful_key. cbn [fst snd].
    rewrite Huseless, Hurl, Hat. repeat split; auto.
Qed.

Lemma without_keys_dict (popped : list string) (items : list (string * json)) :
  Forall (fun item => key_in popped (fst item) = false) items ->
  without_keys popped (JDict items) = true.
Proof.
  intros H. simpl. apply forallb_forall. rewrite Forall_forall in H.
  intros item Hin. rewrite (H item Hin). reflexivity.
Qed.

(** What [_remove_useless_links] returns is scrubbed, whatever was popped
    before. *)
Lemma links_scrub (data : json) :
  well_formed data = true -> forall popped, scrubs popped data.
Proof.
  induction data as [|b|n|s|elems IH|items IH] using json_induction;
    intros Hwf popped out Hout;
    try (simpl in Hout; injection Hout as <-;
         split; [reflexivity | split; [reflexivity | discriminate]]).
  - rewrite links_list_step in Hout.
    destruct (links_each elems) as [elems'|e] eqn:Heach; [|discriminate].
    injection Hout as <-.
    split; [|split; [reflexivity | discriminate]].
    simpl in Hwf. simpl. revert elems' Heach.
    induction elems as [|x xs IHxs]; intros elems' Heach; simpl in Heach.
    + injection Heach as <-. reflexivity.
    + inversion IH as [|? ? Hx Hxs]; subst.
      simpl in Hwf. apply andb_prop in Hwf as [Hwx Hwxs].
      destruct (remove_useless_links_from [] x) as [x'|e] eqn:Hx'; [|discriminate].
      destruct (links_each xs) as [xs'|e] eqn:Hxs'; [|discriminate].
      injection Heach as <-. simpl.
      destruct (Hx Hwx [] x' Hx') as [Hs _]. rewrite Hs.
      apply IHxs; auto.
  - rewrite links_dict_step in Hout. cbv zeta in Hout.
    set (gone := key_in (popped ++ useless_keys)) in *.
    set (kept := filter (fun item => negb (gone (fst item))) items) in *.
    destruct (pop_inside "organization" kept) as [[]|e] eqn:Horg; [|discriminate].
    destruct (pop_inside "check_run" kept) as [[]|e] eqn:Hrun; [|discriminate].
    destruct (links_loop gone items) as [items'|e] eqn:Hloop; [|discriminate].
    injection Hout as <-.
    assert (Hitems :
              Forall (fun item =>
                        gone (fst item) = false ->
                        scrubs (popped_inside (fst item)) (snd item)
                        /\ (popped_inside (fst item) <> [] ->
                            is_dict (snd item) = true))
                items).
    { pose proof (dict_get_unique _ Hwf) as Hget.
      pose proof (well_formed_values _ Hwf) as Hvalues.
      rewrite Forall_forall in *. intros [key value] Hin Hgone. simpl in *.
      split; [apply (IH _ Hin), (Hvalues _ Hin)|].
      intros Hpopped.
      assert (Hkept : dict_get key kept = Some value).
      { unfold kept. rewrite dict_get_filter, Hgone. apply (Hget _ Hin). }
      destruct (popped_inside_cases key) as [Hnone | [[-> _] | [-> _]]].
      - congruence.
      - apply (pop_inside_dict _ _ Horg Hkept).
      - apply (pop_inside_dict _ _ Hrun Hkept). }
    pose proof (@links_loop_scrubbed popped items items' Hitems Hloop) as Hout.
    split; [|split; [|reflexivity]].
    + apply scrubbed_dict. rewrite Forall_forall in *.
      intros item Hin. apply (Hout item Hin).
    + apply without_keys_dict. rewrite Forall_forall in *.
      intros item Hin. apply (Hout item Hin).
Qed.

(** X15: what [_remove_useless_links] returns for a value whose keys
    stand once holds, at every depth, none of the sixteen keys the
    function pops and no key that ends in [url] or [_at]; the value of
    [organization] is there a [dict] without [description], and the value
    of [check_run] a [dict] without [checks_suite]. *)
Theorem links_removed (data out : json) :
  well_formed data = true ->
  _remove_useless_links data = Done out ->
  scrubbed out = true.
Proof.
  intros Hwf Hout. apply (@links_scrub data Hwf [] out Hout).
Qed.

Lemma links_removed_witness :
  scrubbed
    (JDict [("action", JStr "opened");
            ("organization", JDict [("login", JStr "mergifyio-testing")]);
            ("pull_request", JDict [("number", JInt 7)])])
  = true.
Proof.
  apply (@links_removed
           (JDict [("action", JStr "opened");
                   ("sender", JDict [("login", JStr "someone")]);
                   ("organization",
                    JDict [("login", JStr "mergifyio-testing");
                           ("description", JStr "tests");
                           ("repos_url", JStr "https://api.github.com/orgs/x/repos")]);
                   ("pull_request",
                    JDict [("number", JInt 7);
                           ("html_url", JStr "https://github.com/x/y/pull/7");
                           ("created_at", JStr "2020-01-01T00:00:00Z");
                           ("user", JDict [("login", JStr "someone")])])])).
  - reflexivity.
  - reflexivity.
Defined.

Lemma without_keys_nil (data : json) : without_keys [] data = true.
Proof.
  destruct data; try reflexivity. simpl.
  apply forallb_forall. intros item _. reflexivity.
Qed.

Lemma links_loop_fixed (popped : list string) (items : list (string * json)) :
  Forall (fun item =>
            scrubbed_item item
            /\ key_in popped (fst item) = false
            /\ remove_useless_links_from (popped_inside (fst item)) (snd item)
               = Done (snd item))
    items ->
  links_loop (key_in (popped ++ useless_keys)) items = Done items.
Proof.
  induction items as [|[key value] rest IH]; intros H; [reflexivity|].
  inversion H as [|? ? [[Hkey _] [Hpopped Hvalue]] Hrest]; subst.
  cbn [fst snd] in *.
  unfold useful_key in Hkey.
  apply andb_prop in Hkey as [Hkey Hat]. apply andb_prop in Hkey as [Huseless Hurl].
  apply negb_true_iff in Huseless, Hurl, Hat.
  rewrite links_loop_step, key_in_app, Hpopped, Huseless, Hurl, Hat, Hvalue.
  simpl orb. cbv iota. rewrite (IH Hrest). reflexivity.
Qed.

(** A scrubbed value is left as it is. *)
Lemma scrubbed_fixed (out : json) :
  scrubbed out = true ->
  forall popped,
    without_keys popped out = true ->
    remove_useless_links_from popped out = Done out.
Proof.
  induction out as [|b|n|s|elems IH|items IH] using json_induction;
    intros Hscrubbed popped Hwithout; try reflexivity.
  - rewrite links_list_step.
    assert (Heach : links_each elems = Done elems).
    { simpl in Hscrubbed. clear Hwithout.
      induction elems as [|x xs IHxs]; [reflexivity|].
      inversion IH as [|? ? Hx Hxs]; subst.
      simpl in Hscrubbed. apply andb_prop in Hscrubbed as [Hsx Hsxs].
      simpl. rewrite (Hx Hsx [] (without_keys_nil x)).
      rewrite (IHxs Hxs Hsxs). reflexivity. }
    rewrite Heach. reflexivity.
  - apply scrubbed_dict in Hscrubbed.
    rewrite links_dict_step. cbv zeta.
    assert (Hdicts :
              forall key value,
                popped_inside key <> [] ->
                dict_get key
                  (filter (fun item =>
                             negb (key_in (popped ++ useless_keys) (fst item)))
                     items)
                = Some value ->
                is_dict value = true).
    { intros key value Hpopped Hget. rewrite dict_get_filter in Hget.
      destruct (key_in (popped ++ useless_keys) key); [discriminate|].
      apply dict_get_in in Hget. rewrite Forall_forall in Hscrubbed.
      apply (Hscrubbed _ Hget). exact Hpopped. }
    rewrite (pop_inside_done "organization") by (intros v; apply Hdicts; discriminate).
    rewrite (pop_inside_done "check_run") by (intros v; apply Hdicts; discriminate).
    rewrite links_loop_fixed; [reflexivity|].
    simpl in Hwithout. rewrite forallb_forall in Hwithout.
    rewrite Forall_forall in *. intros item Hin.
    pose proof (Hscrubbed item Hin) as Hitem.
    split; [exact Hitem|]. split.
    + apply negb_true_iff, (Hwithout item Hin).
    + destruct Hitem as [_ [Hs [Hw _]]]. apply (IH item Hin Hs _ Hw).
Qed.

(** X16: [_remove_useless_links] is idempotent: on a value whose keys
    stand once, what it returns is returned unchanged when it is given
    back to it, and that second call raises nothing. *)
Theorem links_removed_once (data out : json) :
  well_formed data = true ->
  _remove_useless_links data = Done out ->
  _remove_useless_links out = Done out.
Proof.
  intros Hwf Hout.
  apply scrubbed_fixed; [|apply without_keys_nil].
  apply (@links_scrub data Hwf [] out Hout).
Qed.

Lemma links_removed_once_witness :
  _remove_useless_links
    (JDict [("action", JStr "opened"); ("number", JInt 7)])
  = Done (JDict [("action", JStr "opened"); ("number", JInt 7)]).
Proof.
  apply (@links_removed_once
           (JDict [("action", JStr "opened");
                   ("number", JInt 7);
                   ("url", JStr "https://api.github.com/repos/x/y/pulls/7");
                   ("updated_at", JStr "2020-01-01T00:00:00Z")])).
  - reflexivity.
  - reflexivity.
Defined.

Lemma inner_dicts_dict (items : list (string * json)) :
  inner_dicts (JDict items) = true ->
  Forall (fun item =>
            (popped_inside (fst item) <> [] -> is_dict (snd item) = true)
            /\ inner_dicts (snd item) = true)
    items.
Proof.
  induction items as [|[key value] rest IH]; intros H; [constructor|].
  change (inner_dicts (JDict ((key, value) :: rest)))
    with (match popped_inside key with
          | [] => true
          | _ :: _ => is_dict value
          end
          && inner_dicts value
          && inner_dicts (JDict rest)) in H.
  apply andb_prop in H as [H Hrest]. apply andb_prop in H as [Hdict Hvalue].
  constructor; [|apply IH, Hrest].
  simpl. split; [|exact Hvalue].
  destruct (popped_inside key); [congruence | trivial].
Qed.

Lemma links_loop_done (gone : string -> bool) (items : list (string * json)) :
  Forall (fun item =>
            exists value',
              remove_useless_links_from (popped_inside (fst item)) (snd item)
              = Done value')
    items ->
  exists items', links_loop gone items = Done items'.
Proof.
  induction items as [|[key value] rest IH]; intros H.
  - exists []. reflexivity.
  - inversion H as [|? ? [value' Hvalue] Hrest]; subst. simpl in Hvalue.
    destruct (IH Hrest) as [rest' Hrest'].
    rewrite links_loop_step, Hvalue, Hrest'.
    destruct (gone key); [eauto|].
    destruct (endswith "url" key); [eauto|].
    destruct (endswith "_at" key); eauto.
Qed.

(** X17: [_remove_useless_links] raises only over a value of
    [organization] or of [check_run] that is not a [dict]: on data where,
    at every depth, these two values are [dict]s, it returns. *)
Theorem links_removal_returns (data : json) :
  inner_dicts data = true ->
  exists out, _remove_useless_links data = Done out.
Proof.
  unfold _remove_useless_links. generalize (@nil string) as popped.
  induction data as [|b|n|s|elems IH|items IH] using json_induction;
    intros popped Hdicts; try (eexists; reflexivity).
  - rewrite links_list_step.
    assert (Heach : exists elems', links_each elems = Done elems').
    { simpl in Hdicts.
      induction elems as [|x xs IHxs]; [exists []; reflexivity|].
      inversion IH as [|? ? Hx Hxs]; subst.
      simpl in Hdicts. apply andb_prop in Hdicts as [Hdx Hdxs].
      destruct (Hx [] Hdx) as [x' Hx'].
      destruct (IHxs Hxs Hdxs) as [xs' Hxs'].
      exists (x' :: xs'). simpl. rewrite Hx', Hxs'. reflexivity. }
    destruct Heach as [elems' ->]. eexists. reflexivity.
  - apply inner_dicts_dict in Hdicts.
    rewrite links_dict_step. cbv zeta.
    assert (Hkept :
              forall key value,
                popped_inside key <> [] ->
                dict_get key
                  (filter (fun item =>
                             negb (key_in (popped ++ useless_keys) (fst item)))
                     items)
                = Some value ->
                is_dict value = true).
    { intros key value Hpopped Hget. rewrite dict_get_filter in Hget.
      destruct (key_in (popped ++ useless_keys) key); [discriminate|].
      apply dict_get_in in Hget. rewrite Forall_forall in Hdicts.
      apply (Hdicts _ Hget). exact Hpopped. }
    rewrite (pop_inside_done "organization") by (intros v; apply Hkept; discriminate).
    rewrite (pop_inside_done "check_run") by (intros v; apply Hkept; discriminate).
    destruct (@links_loop_done (key_in (popped ++ useless_keys)) items)
      as [items' ->].
    + rewrite Forall_forall in *. intros item Hin.
      apply (IH item Hin). apply (Hdicts item Hin).
    + eexists. reflexivity.
Qed.

Lemma links_removal_returns_witness :
  exists out,
    _remove_useless_links
      (JDict [("check_run", JDict [("status", JStr "completed")]);
              ("pull_requests", JList [JDict [("number", JInt 7)]])])
    = Done out.
Proof.
  apply (@links_removal_returns
           (JDict [("check_run", JDict [("status", JStr "completed")]);
                   ("pull_requests", JList [JDict [("number", JInt 7)]])])).
  reflexivity.
Defined.

(** An [organization] that is [None] makes the call raise. *)
Example links_removal_raises :
  _remove_useless_links (JDict [("action", JStr "created"); ("organization", JNull)])
  = Fails AttributeError.
Proof. reflexivity. Qed.

End Links.

(** ** The synchronisation under the smart mode *)

Lemma queued_add_pull (c : Context) (m : StrictMethod) (q : MergeQueue) :
  queued (number (pull c)) (add_pull c m q) = true.
Proof.
  unfold add_pull.
  destruct (queued (number (pull c)) q) eqn:Hq.
  - unfold queued in *. induction q as [|e q IH]; simpl in *; [discriminate|].
    destruct (Z.eqb (pull_number e) (number (pull c))) eqn:He; simpl.
    + rewrite Z.eqb_refl. reflexivity.
    + rewrite He. apply IH, Hq.
  - unfold queued. rewrite existsb_app. simpl.
    rewrite Z.eqb_refl. simpl. apply orb_true_r.
Qed.

(** X18: under [strict == "smart"], when nothing is reported and the
    pull request is behind a base branch that may be modified, [run]
    queues the pull request with [strict_method] and returns no status
    with "Base branch will be updated soon"; it calls no endpoint,
    refreshes nothing and removes nothing from the queue. *)
Theorem smart_sync_enqueues (env : Env) (config : Config)
    (missing_conditions : list Condition) (w : World) :
  strict config = StrictSmart ->
  merge_report env (ctxt w) StrictSmart = None ->
  is_behind (ctxt w) = true ->
  pull_base_is_modifiable (ctxt w) = true ->
  let r := run env config missing_conditions w in
  let n := number (pull (ctxt w)) in
  fst r
  = Return (Some (None, "Base branch will be updated soon",
                  "The pull request base branch will be updated soon, and then merged."))
  /\ ctxt (snd r) = ctxt w
  /\ merge_queue (snd r) = add_pull (ctxt w) (strict_method config) (merge_queue w)
  /\ queued n (merge_queue (snd r)) = true
  /\ trace (snd r)
     = (trace w ++ [EvLog "process merge"; EvQueueAdd n (strict_method config)])%list.
Proof.
  intros Hsmart Hreport Hbehind Hmodifiable r n. subst r n.
  rewrite <- Hsmart in Hreport.
  assert (Hsync : strict_truthy (strict config) && is_behind (ctxt w) = true)
    by (rewrite Hsmart, Hbehind; reflexivity).
  rewrite (run_sync _ _ _ _ Hreport Hsync).
  unfold _sync_with_base_branch, bind, get_ctxt, queue_add_pull. simpl.
  rewrite Hmodifiable, Hsmart. simpl.
  repeat split.
  - apply queued_add_pull.
  - rewrite <- app_assoc. reflexivity.
Qed.

Lemma smart_sync_enqueues_witness :
  let r := run (Sample.env PutOk Sample.same) Sample.config_smart []
             (mkWorld Sample.ctxt_behind [Sample.other_entry] []) in
  fst r
  = Return (Some (None, "Base branch will be updated soon",
                  "The pull request base branch will be updated soon, and then merged."))
  /\ ctxt (snd r) = Sample.ctxt_behind
  /\ merge_queue (snd r)
     = add_pull Sample.ctxt_behind StrictMethodMerge [Sample.other_entry]
  /\ queued 7 (merge_queue (snd r)) = true
  /\ trace (snd r) = [EvLog "process merge"; EvQueueAdd 7 StrictMethodMerge].
Proof.
  exact (@smart_sync_enqueues (Sample.env PutOk Sample.same) Sample.config_smart []
           (mkWorld Sample.ctxt_behind [Sample.other_entry] [])
           eq_refl eq_refl eq_refl eq_refl).
Defined.
